(** * cheater.ipynb: item-response models, fitting objective and cheater scorers

    A shallow embedding of the notebook's model classes ([ResponseModel],
    [ResponseModelWithCheater]), of [fit] and of the two prediction lines.

    Float tensors are modelled over the real numbers: a 1-D tensor is a
    [list R], a 2-D tensor is a shape together with an indexing function.
    Rounding, overflow and saturation of float32 arithmetic are therefore not
    part of this model: in float32 [sigmoid] reaches 0 and 1, [softmax] can
    give distinct logits one value, and a large difficulty makes the penalty
    infinite.  The one place where a float computation produces a value that
    is not a real number in exact arithmetic as well (the mean of an empty
    tensor, 0/0) is modelled by the outcome [Nan]; the program goes on
    computing with a nan there, the model stops following it.

    Where a property depends on float32 arithmetic it is stated with the
    range of float32 ([float32_max]) or with round-to-nearest-even
    ([Float32.round], [softmax32]).

    The torch functions the notebook calls are modelled in [Module Torch]
    after their documented semantics (broadcasting, [sigmoid], [softmax],
    [Bernoulli], [Adam]). *)

From Stdlib Require Import Reals Lra Lia List Arith Bool ZArith.
Import ListNotations.
Local Open Scope R_scope.
Set Warnings "-abstract-large-number".

(** ** Outcomes of a Python computation *)

Inductive exn : Type :=
| ValueError
| RuntimeError.

Inductive outcome (A : Type) : Type :=
| Ok (a : A)
| Raise (e : exn)
| Nan.

Arguments Ok {A} a.
Arguments Raise {A} e.
Arguments Nan {A}.

Definition bind {A B : Type} (c : outcome A) (k : A -> outcome B) : outcome B :=
  match c with
  | Ok a => k a
  | Raise e => Raise e
  | Nan => Nan
  end.

Notation "x <- c ;; k" := (bind c (fun x => k))
  (at level 61, c at next level, right associativity).

(** ** The torch operations used by the notebook *)

Module Torch.

(** A 2-D tensor: its shape and its entries.  Only the entries at
    [i < nrow], [j < ncol] are meaningful. *)
Record Tensor2 : Type := mkTensor2 {
  nrow : nat;
  ncol : nat;
  get : nat -> nat -> R
}.

(** [v[:, None]]: a length-n vector viewed as an (n,1) column. *)
Definition unsqueeze_col (v : list R) : Tensor2 :=
  {| nrow := length v; ncol := 1; get := fun i _ => nth i v 0 |}.

(** [v[None, :]]: a length-m vector viewed as a (1,m) row. *)
Definition unsqueeze_row (v : list R) : Tensor2 :=
  {| nrow := 1; ncol := length v; get := fun _ j => nth j v 0 |}.

(** Broadcasting of one dimension: equal sizes, or one of them is 1. *)
Definition broadcast_dim (a b : nat) : option nat :=
  if Nat.eqb a b then Some a
  else if Nat.eqb a 1 then Some b
  else if Nat.eqb b 1 then Some a
  else None.

(** The index read in a dimension of size [n] when broadcasting. *)
Definition bidx (n i : nat) : nat := if Nat.eqb n 1 then 0%nat else i.

(** An elementwise binary operation with broadcasting; shapes that do not
    broadcast raise [RuntimeError]. *)
Definition binop (f : R -> R -> R) (a b : Tensor2) : outcome Tensor2 :=
  match broadcast_dim (nrow a) (nrow b), broadcast_dim (ncol a) (ncol b) with
  | Some n, Some m =>
      Ok {| nrow := n; ncol := m;
            get := fun i j =>
              f (get a (bidx (nrow a) i) (bidx (ncol a) j))
                (get b (bidx (nrow b) i) (bidx (ncol b) j)) |}
  | _, _ => Raise RuntimeError
  end.

(** An elementwise unary operation (also: an operation with a scalar). *)
Definition tmap (f : R -> R) (a : Tensor2) : Tensor2 :=
  {| nrow := nrow a; ncol := ncol a; get := fun i j => f (get a i j) |}.

(** [torch.sigmoid] *)
Definition sigmoid (x : R) : R := 1 / (1 + exp (- x)).

Fixpoint sum (l : list R) : R :=
  match l with
  | [] => 0
  | x :: t => x + sum t
  end.

(** [F.softmax] of a 1-D tensor (the implicit dimension is 0). *)
Definition softmax (l : list R) : list R :=
  map (fun x => exp x / sum (map exp l)) l.

(** The entries of row [i], left to right. *)
Definition row (t : Tensor2) (i : nat) : list R :=
  map (get t i) (seq 0 (ncol t)).

(** [t.sum(axis=1)] *)
Definition sum_axis1 (t : Tensor2) : list R :=
  map (fun i => sum (row t i)) (seq 0 (nrow t)).

(** [v.mean()] of a 1-D tensor; the mean of an empty tensor is nan. *)
Definition mean1 (v : list R) : outcome R :=
  match v with
  | [] => Nan
  | _ => Ok (sum v / INR (length v))
  end.

(** [t.mean()] of a 2-D tensor: the sum of all entries over their number. *)
Definition mean (t : Tensor2) : outcome R :=
  if Nat.eqb (nrow t * ncol t) 0 then Nan
  else Ok (sum (sum_axis1 t) / INR (nrow t * ncol t)).

(** A test on every entry of a tensor. *)
Definition tensor_all (p : R -> bool) (t : Tensor2) : bool :=
  forallb (fun i => forallb (fun j => p (get t i j)) (seq 0 (ncol t)))
          (seq 0 (nrow t)).

(** [constraints.unit_interval] *)
Definition unit_interval (x : R) : bool :=
  if Rle_dec 0 x then (if Rle_dec x 1 then true else false) else false.

(** [constraints.boolean] *)
Definition boolean (x : R) : bool :=
  if Req_dec_T x 0 then true else if Req_dec_T x 1 then true else false.

(** [torch.distributions.Bernoulli], parameterised by [probs]. *)
Record Bernoulli : Type := mkBernoulli { probs : Tensor2 }.

(** [Bernoulli(probs=p)]: argument validation rejects a probability
    outside [0,1]. *)
Definition Bernoulli_init (p : Tensor2) : outcome Bernoulli :=
  if tensor_all unit_interval p then Ok {| probs := p |}
  else Raise ValueError.

(** [torch.finfo(torch.float32).eps], 2^-23: the parameters are created by
    [torch.zeros], whose default dtype is float32. *)
Definition eps : R := / 8388608.

(** [clamp_probs]: [probs.clamp(min=eps, max=1 - eps)] *)
Definition clamp_probs (p : R) : R := Rmin (Rmax p eps) (1 - eps).

(** [probs_to_logits(probs, is_binary=True)]:
    [log(ps_clamped) - log1p(-ps_clamped)] *)
Definition log1p (x : R) : R := ln (1 + x).

Definition probs_to_logits (p : R) : R :=
  ln (clamp_probs p) - log1p (- clamp_probs p).

(** [binary_cross_entropy_with_logits(x, y, reduction="none")]:
    -(y log(sigmoid x) + (1 - y) log(1 - sigmoid x)) *)
Definition binary_cross_entropy_with_logits (x y : R) : R :=
  - (y * ln (sigmoid x) + (1 - y) * ln (1 - sigmoid x)).

Definition broadcastable (a b : Tensor2) : bool :=
  match broadcast_dim (nrow a) (nrow b), broadcast_dim (ncol a) (ncol b) with
  | Some _, Some _ => true
  | _, _ => false
  end.

(** [Bernoulli.log_prob(value)]: the sample is validated (its shape must
    broadcast with the batch shape, its entries must be 0 or 1), then
    [-binary_cross_entropy_with_logits(logits, value)] is taken entrywise,
    with [logits = probs_to_logits(probs)]. *)
Definition log_prob (d : Bernoulli) (value : Tensor2) : outcome Tensor2 :=
  if negb (broadcastable (probs d) value) then Raise ValueError
  else if negb (tensor_all boolean value) then Raise ValueError
  else binop (fun x y => - binary_cross_entropy_with_logits x y)
             (tmap probs_to_logits (probs d)) value.

(** [numpy.argmax] / [numpy.argmin] of a 1-D array: the first index of an
    extremal entry; an empty array raises [ValueError]. *)
Fixpoint argmax_from (best_i : nat) (best : R) (i : nat) (l : list R) : nat :=
  match l with
  | [] => best_i
  | x :: t =>
      if Rlt_dec best x then argmax_from i x (S i) t
      else argmax_from best_i best (S i) t
  end.

Definition argmax (l : list R) : outcome nat :=
  match l with
  | [] => Raise ValueError
  | x :: t => Ok (argmax_from 0 x 1 t)
  end.

Fixpoint argmin_from (best_i : nat) (best : R) (i : nat) (l : list R) : nat :=
  match l with
  | [] => best_i
  | x :: t =>
      if Rlt_dec x best then argmin_from i x (S i) t
      else argmin_from best_i best (S i) t
  end.

Definition argmin (l : list R) : outcome nat :=
  match l with
  | [] => Raise ValueError
  | x :: t => Ok (argmin_from 0 x 1 t)
  end.

(** [torch.zeros(n)] *)
Definition zeros (n : nat) : list R := repeat 0 n.

End Torch.

Import Torch.

(** ** The answering models *)

(** [class ResponseModel(torch.nn.Module)] *)
Record ResponseModel : Type := mkResponseModel {
  skill : list R;
  difficulty : list R
}.

Definition ResponseModel_init (n_students n_questions : nat) : ResponseModel :=
  {| skill := zeros n_students; difficulty := zeros n_questions |}.

(** [ResponseModel.forward]:
    [Bernoulli(probs=torch.sigmoid(self.skill[:, None] - self.difficulty[None, :]))] *)
Definition ResponseModel_forward (self : ResponseModel) : outcome Bernoulli :=
  x <- binop Rminus (unsqueeze_col (skill self)) (unsqueeze_row (difficulty self)) ;;
  Bernoulli_init (tmap sigmoid x).

(** [class ResponseModelWithCheater(ResponseModel)] *)
Record ResponseModelWithCheater : Type := mkResponseModelWithCheater {
  base : ResponseModel;
  cheater_logits : list R
}.

Definition ResponseModelWithCheater_init (n_students n_questions : nat)
  : ResponseModelWithCheater :=
  {| base := ResponseModel_init n_students n_questions;
     cheater_logits := zeros n_students |}.

(** [ResponseModelWithCheater.forward] *)
Definition ResponseModelWithCheater_forward (self : ResponseModelWithCheater)
  : outcome Bernoulli :=
  let cheater_prob := unsqueeze_col (softmax (cheater_logits self)) in
  x <- binop Rminus (unsqueeze_col (skill (base self)))
                    (unsqueeze_row (difficulty (base self))) ;;
  let answer_no_cheat := tmap sigmoid x in
  let answer_cheat := tmap (fun s => 0.5 * s + 0.5 * 1) (tmap sigmoid x) in
  a <- binop Rmult cheater_prob answer_cheat ;;
  b <- binop Rmult (tmap (fun c => 1 - c) cheater_prob) answer_no_cheat ;;
  p <- binop Rplus a b ;;
  Bernoulli_init p.

(** What [fit] and the optimizer use of a [torch.nn.Module]: calling it,
    its parameters in registration order, their in-place update, and its
    [difficulty] attribute. *)
Class NNModule (M : Type) : Type := {
  forward : M -> outcome Bernoulli;
  parameters : M -> list (list R);
  load_parameters : M -> list (list R) -> M;
  difficulty_of : M -> list R
}.

#[export] Instance ResponseModel_module : NNModule ResponseModel := {
  forward := ResponseModel_forward;
  parameters := fun self => [skill self; difficulty self];
  load_parameters := fun self ps =>
    match ps with
    | [s; d] => {| skill := s; difficulty := d |}
    | _ => self
    end;
  difficulty_of := difficulty
}.

#[export] Instance ResponseModelWithCheater_module
  : NNModule ResponseModelWithCheater := {
  forward := ResponseModelWithCheater_forward;
  parameters := fun self =>
    [skill (base self); difficulty (base self); cheater_logits self];
  load_parameters := fun self ps =>
    match ps with
    | [s; d; c] =>
        {| base := {| skill := s; difficulty := d |}; cheater_logits := c |}
    | _ => self
    end;
  difficulty_of := fun self => difficulty (base self)
}.

(** ** The optimizer: [torch.optim.Adam] with its default betas and eps *)

Definition map2 {A B C : Type} (f : A -> B -> C) (l1 : list A) (l2 : list B)
  : list C :=
  map (fun ab => f (fst ab) (snd ab)) (combine l1 l2).

Record Adam : Type := mkAdam {
  lr : R;
  beta1 : R;
  beta2 : R;
  adam_eps : R;
  step_count : nat;
  exp_avg : list (list R);
  exp_avg_sq : list (list R)
}.

Definition Adam_init (params : list (list R)) (lr0 : R) : Adam :=
  {| lr := lr0; beta1 := 0.9; beta2 := 0.999; adam_eps := 1 / 100000000;
     step_count := 0;
     exp_avg := map (fun p => zeros (length p)) params;
     exp_avg_sq := map (fun p => zeros (length p)) params |}.

(** [optimizer.step()]: the updated parameters and optimizer state, given
    the gradients left by [loss.backward()]. *)
Definition Adam_step (opt : Adam) (params grads : list (list R))
  : list (list R) * Adam :=
  let t := S (step_count opt) in
  let m := map2 (map2 (fun m g => beta1 opt * m + (1 - beta1 opt) * g))
                (exp_avg opt) grads in
  let v := map2 (map2 (fun v g => beta2 opt * v + (1 - beta2 opt) * (g * g)))
                (exp_avg_sq opt) grads in
  let bias_correction1 := 1 - beta1 opt ^ t in
  let bias_correction2 := 1 - beta2 opt ^ t in
  let step_size := lr opt / bias_correction1 in
  let denom := fun vi => sqrt vi / sqrt bias_correction2 + adam_eps opt in
  let update := fun p mv => p - step_size * (fst mv / denom (snd mv)) in
  (map2 (fun p mv => map2 update p (combine (fst mv) (snd mv)))
        params (combine m v),
   {| lr := lr opt; beta1 := beta1 opt; beta2 := beta2 opt;
      adam_eps := adam_eps opt; step_count := t;
      exp_avg := m; exp_avg_sq := v |}).

(** ** Fitting *)

Section Fit.

Context {M : Type} {module : NNModule M}.

(** Automatic differentiation is not modelled: [backward f model] stands for
    the gradients [loss.backward()] leaves on [model.parameters()], for the
    loss computed by [f]. *)
Variable backward : (M -> outcome R) -> M -> list (list R).

(** The loss line of [fit]:
    [-distribution.log_prob(answers).mean()
     + alpha*torch.pow(model.difficulty.mean(), 2)] *)
Definition loss_of (answers : Tensor2) (alpha : R) (model : M) : outcome R :=
  distribution <- forward model ;;
  lp <- log_prob distribution answers ;;
  nll <- mean lp ;;
  md <- mean1 (difficulty_of model) ;;
  Ok (- nll + alpha * md ^ 2).

Record fit_state : Type := mkFitState {
  st_model : M;
  st_optimizer : Adam;
  st_losses : list R
}.

(** One iteration of the loop of [fit].  [optimizer.zero_grad()] clears the
    gradients of the previous iteration, so that the gradients the step uses
    are those of this iteration's loss; the loss is recorded before the
    step. *)
Definition epoch (answers : Tensor2) (alpha : R) (st : fit_state)
  : outcome fit_state :=
  loss <- loss_of answers alpha (st_model st) ;;
  let losses := st_losses st ++ [loss] in
  let grads := backward (loss_of answers alpha) (st_model st) in
  let '(params, optimizer) :=
    Adam_step (st_optimizer st) (parameters (st_model st)) grads in
  Ok {| st_model := load_parameters (st_model st) params;
        st_optimizer := optimizer;
        st_losses := losses |}.

(** [for _ in trange(epochs) if see_progress else range(epochs)]: both
    iterate [epochs] times; [trange] only draws a progress bar. *)
Fixpoint run_epochs (epochs : nat) (answers : Tensor2) (alpha : R)
  (st : fit_state) : outcome fit_state :=
  match epochs with
  | O => Ok st
  | S n => st' <- epoch answers alpha st ;; run_epochs n answers alpha st'
  end.

(** The optimizer [fit] builds: [torch.optim.Adam(model.parameters(), lr=0.01)] *)
Definition fit_optimizer (model : M) : Adam :=
  Adam_init (parameters model) 0.01.

(** The value of the keyword argument [alpha=1.0]. *)
Definition fit_alpha (alpha : option R) : R :=
  match alpha with
  | Some a => a
  | None => 1.0
  end.

(** [fit(model, answers, epochs, alpha=1.0, see_progress=True)].  The moves
    to and from the GPU do not change any value and are left out. *)
Definition fit (model : M) (answers : Tensor2) (epochs : nat)
  (alpha : option R) (see_progress : option bool)
  : outcome (M * list R) :=
  let optimizer := fit_optimizer model in
  st <- run_epochs epochs answers (fit_alpha alpha)
          {| st_model := model; st_optimizer := optimizer; st_losses := [] |} ;;
  Ok (st_model st, st_losses st).

End Fit.

(** ** Predicting the cheater *)

(** [log_probs = model().log_prob(answers).sum(axis=1)]
    [predicted_cheater = log_probs.argmin()] *)
Definition log_probs (model : ResponseModel) (answers : Tensor2)
  : outcome (list R) :=
  distribution <- forward model ;;
  lp <- log_prob distribution answers ;;
  Ok (sum_axis1 lp).

Definition predicted_cheater (model : ResponseModel) (answers : Tensor2)
  : outcome nat :=
  lps <- log_probs model answers ;;
  argmin lps.

(** [predicted_cheater = F.softmax(model.cheater_logits).detach().numpy().argmax()] *)
Definition predicted_cheater_with_cheater (model : ResponseModelWithCheater)
  : outcome nat :=
  argmax (softmax (cheater_logits model)).

(** ** Definitions used to state the properties *)

(** [t] has shape (n,m) and its entries are given by [f]. *)
Definition has_entries (t : Tensor2) (n m : nat) (f : nat -> nat -> R) : Prop :=
  nrow t = n /\ ncol t = m /\
  forall i j, (i < n)%nat -> (j < m)%nat -> get t i j = f i j.

(** The matrix is binary: every answer is 0 or 1. *)
Definition binary (answers : Tensor2) : Prop :=
  forall i j, (i < nrow answers)%nat -> (j < ncol answers)%nat ->
    get answers i j = 0 \/ get answers i j = 1.

(** The honest probability, the cheating probability and the probability
    of being the cheater, as the specification names them. *)
Definition p_no_cheat (skill difficulty : list R) (i j : nat) : R :=
  sigmoid (nth i skill 0 - nth j difficulty 0).

Definition p_cheat (skill difficulty : list R) (i j : nat) : R :=
  0.5 * sigmoid (nth i skill 0 - nth j difficulty 0) + 0.5.

Definition cheater_prob (logits : list R) (i : nat) : R :=
  nth i (softmax logits) 0.

(** The log-likelihood of one cell in the words of the specification:
    log(P) if the observed value is 1 and log(1-P) otherwise, P being the
    probability after clamping. *)
Definition log_likelihood_cell (p y : R) : R :=
  if Req_dec_T y 1 then ln (clamp_probs p) else ln (1 - clamp_probs p).

(** The log-likelihood of the answer in cell (i,j) under [d]. *)
Definition log_likelihood (d : Bernoulli) (answers : Tensor2) (i j : nat) : R :=
  log_likelihood_cell (get (probs d) i j) (get answers i j).

(** The sum of [f i j] over [i < n], [j < m]. *)
Definition sum_cells (n m : nat) (f : nat -> nat -> R) : R :=
  sum (map (fun i => sum (map (f i) (seq 0 m))) (seq 0 n)).

(** The objective in the words of the specification: the negative mean of
    the per-cell log-likelihood plus [alpha] times the squared mean of the
    difficulties. *)
Definition objective (d : Bernoulli) (answers : Tensor2)
  (difficulties : list R) (alpha : R) : R :=
  - (sum_cells (nrow answers) (ncol answers) (log_likelihood d answers)
     / INR (nrow answers * ncol answers))
  + alpha * (sum difficulties / INR (length difficulties)) ^ 2.

(** [k] is the first index of a minimal entry of [l]. *)
Definition first_min (l : list R) (k : nat) : Prop :=
  (k < length l)%nat /\
  (forall i, (i < length l)%nat -> nth k l 0 <= nth i l 0) /\
  (forall i, (i < k)%nat -> nth k l 0 < nth i l 0).

(** [k] is the first index of a maximal entry of [l]. *)
Definition first_max (l : list R) (k : nat) : Prop :=
  (k < length l)%nat /\
  (forall i, (i < length l)%nat -> nth i l 0 <= nth k l 0) /\
  (forall i, (i < k)%nat -> nth i l 0 < nth k l 0).

(** The matrix in which every respondent answers every item correctly. *)
Definition all_correct (n m : nat) : Tensor2 :=
  {| nrow := n; ncol := m; get := fun _ _ => 1 |}.

(** Gradients that are all zero (for runs whose gradients do not matter). *)
Definition zero_gradients {M : Type} {module : NNModule M}
  (f : M -> outcome R) (model : M) : list (list R) :=
  map (map (fun _ => 0)) (parameters model).

(** The total log-likelihood of the answer row of respondent [i]. *)
Definition row_log_likelihood (d : Bernoulli) (answers : Tensor2) (i : nat) : R :=
  sum (map (log_likelihood d answers i) (seq 0 (ncol answers))).

(** [v] shifted by the constant [C]. *)
Definition shift (C : R) (v : list R) : list R := map (fun x => x + C) v.


(** ** Generating data *)

(** [torch.ones(n)] *)
Definition ones (n : nat) : list R := repeat 1 n.

(** [torch.where(condition, x, y)] on 1-D tensors of one length. *)
Definition where_ (condition : list bool) (x y : list R) : list R :=
  map (fun cxy : bool * (R * R) =>
         if fst cxy then fst (snd cxy) else snd (snd cxy))
      (combine condition (combine x y)).

(** [t[k] = v]: row [k] of [t] is overwritten with [v]. *)
Definition set_row (t : Tensor2) (k : nat) (v : list R) : Tensor2 :=
  {| nrow := nrow t; ncol := ncol t;
     get := fun i j => if Nat.eqb i k then nth j v 0 else get t i j |}.

(** The values the random number generator returns during one call of
    [generate_data], in the order of the calls: [torch.rand(n_students)],
    [torch.rand(n_questions)], [model().sample()], [torch.randint(...)] and
    the sample of [Bernoulli(probs=0.5*torch.ones(n_questions))] as
    booleans. *)
Record Draws : Type := mkDraws {
  rand_skill : list R;
  rand_difficulty : list R;
  sample : Bernoulli -> Tensor2;
  randint : nat;
  sample_is_cheating : list bool
}.

(** What torch guarantees of these values: [rand] returns the requested
    number of values in [0,1), a sample of a Bernoulli distribution has the
    shape of its probabilities and entries 0 or 1, and [randint] returns a
    value below [high]. *)
Definition valid_draws (rng : Draws) (n_students n_questions : nat) : Prop :=
  length (rand_skill rng) = n_students /\
  Forall (fun u => 0 <= u < 1) (rand_skill rng) /\
  length (rand_difficulty rng) = n_questions /\
  Forall (fun u => 0 <= u < 1) (rand_difficulty rng) /\
  (forall d, nrow (sample rng d) = nrow (probs d) /\
             ncol (sample rng d) = ncol (probs d) /\
             binary (sample rng d)) /\
  (randint rng < n_students)%nat /\
  length (sample_is_cheating rng) = n_questions.

(** [generate_data(n_students, n_questions)].  The model is first built by
    [ResponseModel(n_students, n_students)]; its parameters are then
    replaced.  [torch.randint(high=0, ...)] raises [RuntimeError]. *)
Definition generate_data (rng : Draws) (n_students n_questions : nat)
  : outcome (ResponseModel * Tensor2 * nat) :=
  let model := ResponseModel_init n_students n_students in
  let model := {| skill := map (fun u => -3 + 6 * u) (rand_skill rng);
                  difficulty := difficulty model |} in
  let model := {| skill := skill model;
                  difficulty := map (fun u => -3 + 6 * u) (rand_difficulty rng) |} in
  distribution <- forward model ;;
  let answers := sample rng distribution in
  cheater <- (if Nat.eqb n_students 0 then Raise RuntimeError
              else Ok (randint rng)) ;;
  let is_cheating := sample_is_cheating rng in
  let answers :=
    set_row answers cheater
      (where_ is_cheating (ones n_questions) (row answers cheater)) in
  Ok (model, answers, cheater).

(** ** Repeating and measuring the success rate *)

Section Trials.

(** The random draws of the successive calls of [generate_data]. *)
Variable rngs : nat -> Draws.

Variable backward :
  (ResponseModel -> outcome R) -> ResponseModel -> list (list R).
Variable backward_with_cheater :
  (ResponseModelWithCheater -> outcome R) ->
  ResponseModelWithCheater -> list (list R).

(** The body of the loop that measures the baseline scorer: whether the
    predicted cheater is the true one. *)
Definition trial (rng : Draws) : outcome bool :=
  data <- generate_data rng 100 10000 ;;
  let '(true_model, answers, cheater) := data in
  let model := ResponseModel_init (nrow answers) (ncol answers) in
  fitted <- fit backward model answers 1000 (Some (1 / 100)) (Some false) ;;
  predicted_cheater <- predicted_cheater (fst fitted) answers ;;
  Ok (Nat.eqb predicted_cheater cheater).

(** The body of the loop that measures the mixture scorer. *)
Definition trial_with_cheater (rng : Draws) : outcome bool :=
  data <- generate_data rng 100 10000 ;;
  let '(true_model, answers, cheater) := data in
  let model := ResponseModelWithCheater_init (nrow answers) (ncol answers) in
  fitted <- fit backward_with_cheater model answers 1000 (Some (1 / 100))
              (Some false) ;;
  predicted_cheater <- predicted_cheater_with_cheater (fst fitted) ;;
  Ok (Nat.eqb predicted_cheater cheater).

(** [for _ in trange(samples): ... successes += predicted_cheater == cheater],
    from iteration [k] on, with [todo] iterations left. *)
Fixpoint run_trials (body : Draws -> outcome bool) (todo k successes : nat)
  : outcome nat :=
  match todo with
  | O => Ok successes
  | S todo' =>
      success <- body (rngs k) ;;
      run_trials body todo' (S k) (successes + (if success then 1 else 0))
  end.

Definition samples : nat := 100.

(** The printed success rate, [successes/samples*100]. *)
Definition success_rate (body : Draws -> outcome bool) : outcome R :=
  successes <- run_trials body samples 0 0 ;;
  Ok (INR successes / INR samples * 100).

End Trials.

(** ** More definitions used to state the properties *)

(** Draws for runs whose random values do not matter: every uniform draw is
    0, every sampled answer is 1, the cheater is respondent 0 and cheats on
    every question. *)
Definition constant_draws (n_students n_questions : nat) : Draws :=
  {| rand_skill := zeros n_students;
     rand_difficulty := zeros n_questions;
     sample := fun d => all_correct (nrow (probs d)) (ncol (probs d));
     randint := 0;
     sample_is_cheating := repeat true n_questions |}.

(** Draws for 2 students and 3 questions in which the override matters: the
    sampled answers are [[1;0;1]; [0;0;1]], the cheater is respondent 1 and
    cheats on questions 0 and 2 only. *)
Definition mixed_draws : Draws :=
  {| rand_skill := [0; 1 / 2];
     rand_difficulty := [1 / 4; 0; 3 / 4];
     sample := fun d =>
       {| nrow := nrow (probs d); ncol := ncol (probs d);
          get := fun i j => nth j (nth i [[1; 0; 1]; [0; 0; 1]] []) 0 |};
     randint := 1;
     sample_is_cheating := [true; false; true] |}.

(** The lengths of the tensors of a parameter list. *)
Definition shape (ps : list (list R)) : list nat := map (@length R) ps.

(** [backward] returns gradients of the shapes of the parameters. *)
Definition shape_preserving {M : Type} {module : NNModule M}
  (backward : (M -> outcome R) -> M -> list (list R)) : Prop :=
  forall f model, shape (backward f model) = shape (parameters model).

(** ** float32 *)


(** Rounding of a real number to the nearest float32 value, ties to even.
    Values beyond [float32_max], which float32 arithmetic rounds to an
    infinity, are rounded within their binade like the others. *)
Module Float32.






End Float32.




(** ** Example data *)

(** The tensor with the given rows, all of one length. *)
Definition tensor_of_rows (rows : list (list R)) : Tensor2 :=
  {| nrow := length rows; ncol := length (hd [] rows);
     get := fun i j => nth j (nth i rows []) 0 |}.

(** * Properties *)

(** ** Real-analysis facts about the torch functions *)

Lemma sigmoid_pos (x : R) : 0 < sigmoid x.
Proof.
  unfold sigmoid. pose proof (exp_pos (- x)).
  apply Rdiv_lt_0_compat; lra.
Qed.

Lemma sigmoid_lt_1 (x : R) : sigmoid x < 1.
Proof.
  unfold sigmoid. pose proof (exp_pos (- x)) as He.
  apply (Rmult_lt_reg_r (1 + exp (- x))); [lra|].
  unfold Rdiv. rewrite Rmult_assoc, Rinv_l; lra.
Qed.

Lemma eps_pos : 0 < eps.
Proof. unfold eps. apply Rinv_0_lt_compat. lra. Qed.

Lemma eps_lt_half : eps < / 2.
Proof. unfold eps. apply Rinv_lt_contravar; lra. Qed.

Lemma clamp_probs_bounds (p : R) : eps <= clamp_probs p <= 1 - eps.
Proof.
  pose proof eps_pos. pose proof eps_lt_half.
  unfold clamp_probs, Rmin, Rmax.
  destruct (Rle_dec p eps); destruct (Rle_dec _ (1 - eps)); lra.
Qed.

Lemma clamp_probs_id (p : R) : eps <= p <= 1 - eps -> clamp_probs p = p.
Proof.
  intros Hp. unfold clamp_probs, Rmin, Rmax.
  destruct (Rle_dec p eps); destruct (Rle_dec _ (1 - eps)); lra.
Qed.

(** The logit of a clamped probability is mapped back to it by [sigmoid]. *)
Lemma sigmoid_probs_to_logits (p : R) :
  sigmoid (probs_to_logits p) = clamp_probs p.
Proof.
  pose proof (clamp_probs_bounds p) as Hq. pose proof eps_pos as He.
  unfold probs_to_logits, log1p, sigmoid.
  set (q := clamp_probs p) in *.
  assert (Hq0 : 0 < q) by lra.
  assert (Hq1 : 0 < 1 + - q) by lra.
  replace (- (ln q - ln (1 + - q))) with (ln (1 + - q) - ln q) by ring.
  unfold Rminus at 1. rewrite exp_plus, exp_Ropp, !exp_ln by assumption.
  field. lra.
Qed.

(** What [log_prob] computes in one cell: the logarithm of the clamped
    probability, or of its complement. *)
Lemma log_prob_cell (p y : R) :
  - binary_cross_entropy_with_logits (probs_to_logits p) y
  = y * ln (clamp_probs p) + (1 - y) * ln (1 - clamp_probs p).
Proof.
  unfold binary_cross_entropy_with_logits.
  rewrite sigmoid_probs_to_logits. ring.
Qed.

Lemma sum_exp_pos (l : list R) : l <> [] -> 0 < sum (map exp l).
Proof.
  destruct l as [|x t]; [congruence|]. intros _. simpl.
  assert (H : 0 <= sum (map exp t)).
  { induction t as [|y t IH]; simpl; [lra|].
    pose proof (exp_pos y). lra. }
  pose proof (exp_pos x). lra.
Qed.

Lemma sum_exp_ge (l : list R) (i : nat) :
  (i < length l)%nat -> exp (nth i l 0) <= sum (map exp l).
Proof.
  revert i. induction l as [|x t IH]; intros i Hi; simpl in *; [lia|].
  assert (H0 : 0 <= sum (map exp t)).
  { clear. induction t as [|y t IH]; simpl; [lra|].
    pose proof (exp_pos y). lra. }
  destruct i as [|i].
  - lra.
  - pose proof (exp_pos x). specialize (IH i ltac:(lia)). lra.
Qed.

Lemma softmax_length (l : list R) : length (softmax l) = length l.
Proof. unfold softmax. apply length_map. Qed.

Lemma softmax_nth (l : list R) (i : nat) :
  (i < length l)%nat ->
  nth i (softmax l) 0 = exp (nth i l 0) / sum (map exp l).
Proof.
  intros Hi. unfold softmax.
  rewrite (nth_indep _ 0 (exp 0 / sum (map exp l)))
    by (rewrite length_map; exact Hi).
  apply (map_nth (fun x => exp x / sum (map exp l))).
Qed.

Lemma softmax_bounds (l : list R) (i : nat) :
  (i < length l)%nat -> 0 < nth i (softmax l) 0 <= 1.
Proof.
  intros Hi. rewrite softmax_nth by exact Hi.
  assert (Hl : l <> []) by (destruct l; simpl in *; [lia|congruence]).
  pose proof (sum_exp_pos l Hl) as Hs.
  pose proof (sum_exp_ge l i Hi) as Hg.
  pose proof (exp_pos (nth i l 0)) as He.
  split.
  - apply Rdiv_lt_0_compat; assumption.
  - apply (Rmult_le_reg_r (sum (map exp l))); [assumption|].
    unfold Rdiv. rewrite Rmult_assoc, Rinv_l; lra.
Qed.

Lemma sigmoid_increasing (a b : R) : a < b -> sigmoid a < sigmoid b.
Proof.
  intros Hab. unfold sigmoid, Rdiv. rewrite !Rmult_1_l.
  pose proof (exp_pos (- a)). pose proof (exp_pos (- b)).
  apply Rinv_lt_contravar.
  - apply Rmult_lt_0_compat; lra.
  - assert (exp (- b) < exp (- a)) by (apply exp_increasing; lra). lra.
Qed.


Lemma sigmoid_opp (x : R) : sigmoid (- x) = 1 - sigmoid x.
Proof.
  unfold sigmoid. rewrite Ropp_involutive, exp_Ropp.
  pose proof (exp_pos x). field. split; lra.
Qed.


Lemma sigmoid_0 : sigmoid 0 = / 2.
Proof. unfold sigmoid. rewrite Ropp_0, exp_0. lra. Qed.


Lemma exp_INR (n : nat) : exp (INR n) = exp 1 ^ n.
Proof.
  induction n as [|n IH].
  - simpl. apply exp_0.
  - rewrite S_INR, exp_plus, IH. simpl. ring.
Qed.


(** For a difference of at most 14 in absolute value the probability lies
    within the clamping interval. *)
Lemma sigmoid_within_clamp (x : R) :
  -14 <= x <= 14 -> eps <= sigmoid x <= 1 - eps.
Proof.
  assert (Hpow : exp 14 <= 4782969).
  { replace 14 with (INR 14) by (simpl; lra).
    rewrite exp_INR.
    pose proof exp_le_3 as H3. pose proof (exp_pos 1) as H0.
    apply Rle_trans with (3 ^ 14); [|simpl; lra].
    apply pow_incr. lra. }
  assert (Hlow : forall y, -14 <= y -> eps <= sigmoid y).
  { intros y Hy. unfold sigmoid, eps, Rdiv. rewrite Rmult_1_l.
    pose proof (exp_pos (- y)) as Hp.
    assert (Hle : exp (- y) <= exp 14).
    { destruct (Req_dec (- y) 14) as [->|Hne]; [lra|].
      left. apply exp_increasing. lra. }
    apply Rinv_le_contravar; lra. }
  intros [H1 H2]. split.
  - apply Hlow. exact H1.
  - pose proof (Hlow (- x) ltac:(lra)) as H. rewrite sigmoid_opp in H. lra.
Qed.


(** ** Shapes, broadcasting and entrywise tests *)

Lemma broadcast_dim_same (n : nat) : broadcast_dim n n = Some n.
Proof. unfold broadcast_dim. now rewrite Nat.eqb_refl. Qed.

Lemma broadcast_dim_1_r (n : nat) : broadcast_dim n 1 = Some n.
Proof.
  unfold broadcast_dim. destruct (Nat.eqb_spec n 1); [reflexivity|].
  reflexivity.
Qed.

Lemma broadcast_dim_1_l (n : nat) : broadcast_dim 1 n = Some n.
Proof.
  unfold broadcast_dim. destruct (Nat.eqb_spec 1 n); [now subst|].
  reflexivity.
Qed.


Lemma bidx_lt (n i : nat) : (i < n)%nat -> bidx n i = i.
Proof.
  intros Hi. unfold bidx. destruct (Nat.eqb_spec n 1); [lia|reflexivity].
Qed.

Lemma tensor_all_true (p : R -> bool) (t : Tensor2) :
  tensor_all p t = true <->
  forall i j, (i < nrow t)%nat -> (j < ncol t)%nat -> p (get t i j) = true.
Proof.
  unfold tensor_all. rewrite forallb_forall. split.
  - intros H i j Hi Hj.
    specialize (H i ltac:(apply in_seq; lia)).
    rewrite forallb_forall in H. apply H. apply in_seq. lia.
  - intros H i Hi. apply in_seq in Hi. apply forallb_forall.
    intros j Hj. apply in_seq in Hj. apply H; lia.
Qed.

Lemma unit_interval_true (x : R) : 0 <= x <= 1 -> unit_interval x = true.
Proof.
  intros [H0 H1]. unfold unit_interval.
  destruct (Rle_dec 0 x); [|contradiction].
  destruct (Rle_dec x 1); [reflexivity|contradiction].
Qed.

Lemma boolean_true (x : R) : boolean x = true <-> x = 0 \/ x = 1.
Proof.
  unfold boolean. destruct (Req_dec_T x 0) as [H0|H0].
  - tauto.
  - destruct (Req_dec_T x 1) as [H1|H1]; [tauto|].
    split; [discriminate|]. intros [H|H]; contradiction.
Qed.

Lemma tensor_all_boolean (answers : Tensor2) :
  binary answers -> tensor_all boolean answers = true.
Proof.
  intros Hb. apply tensor_all_true. intros i j Hi Hj.
  apply boolean_true. apply Hb; assumption.
Qed.

(** [skill[:, None] - difficulty[None, :]] is the (N,M) matrix of the
    differences. *)
Lemma outer_minus_ok (s d : list R) :
  exists x,
    binop Rminus (unsqueeze_col s) (unsqueeze_row d) = Ok x /\
    has_entries x (length s) (length d) (fun i j => nth i s 0 - nth j d 0).
Proof.
  unfold binop. simpl.
  rewrite broadcast_dim_1_r, broadcast_dim_1_l.
  eexists. split; [reflexivity|].
  split; [reflexivity|]. split; [reflexivity|].
  intros i j Hi Hj. simpl.
  now rewrite (bidx_lt _ i Hi), (bidx_lt _ j Hj).
Qed.

(** A column (n,1) combined with an (n,m) matrix. *)
Lemma binop_col_ok (f : R -> R -> R) (a b : Tensor2) :
  ncol a = 1%nat -> nrow a = nrow b ->
  exists c,
    binop f a b = Ok c /\
    has_entries c (nrow b) (ncol b) (fun i j => f (get a i 0%nat) (get b i j)).
Proof.
  intros Hc Hr. unfold binop.
  rewrite Hc, Hr, broadcast_dim_same, broadcast_dim_1_l.
  eexists. split; [reflexivity|].
  split; [reflexivity|]. split; [reflexivity|].
  intros i j Hi Hj. simpl.
  now rewrite (bidx_lt _ i Hi), (bidx_lt _ j Hj).
Qed.

(** Two tensors of the same shape. *)
Lemma binop_same_ok (f : R -> R -> R) (a b : Tensor2) :
  nrow a = nrow b -> ncol a = ncol b ->
  exists c,
    binop f a b = Ok c /\
    has_entries c (nrow b) (ncol b) (fun i j => f (get a i j) (get b i j)).
Proof.
  intros Hr Hc. unfold binop.
  rewrite Hc, Hr, !broadcast_dim_same.
  eexists. split; [reflexivity|].
  split; [reflexivity|]. split; [reflexivity|].
  intros i j Hi Hj. simpl.
  now rewrite (bidx_lt _ i Hi), (bidx_lt _ j Hj).
Qed.

Lemma Bernoulli_init_ok (p : Tensor2) :
  (forall i j, (i < nrow p)%nat -> (j < ncol p)%nat -> 0 <= get p i j <= 1) ->
  Bernoulli_init p = Ok {| probs := p |}.
Proof.
  intros H. unfold Bernoulli_init.
  replace (tensor_all unit_interval p) with true; [reflexivity|].
  symmetry. apply tensor_all_true. intros i j Hi Hj.
  apply unit_interval_true. apply H; assumption.
Qed.

(** ** The probabilities of the two models *)

Lemma ResponseModel_forward_ok (self : ResponseModel) :
  exists d,
    ResponseModel_forward self = Ok d /\
    has_entries (probs d) (length (skill self)) (length (difficulty self))
      (p_no_cheat (skill self) (difficulty self)).
Proof.
  unfold ResponseModel_forward.
  destruct (outer_minus_ok (skill self) (difficulty self))
    as (x & Hx & Hn & Hm & Hg).
  rewrite Hx. simpl.
  rewrite Bernoulli_init_ok.
  - eexists. split; [reflexivity|]. simpl.
    split; [exact Hn|]. split; [exact Hm|].
    intros i j Hi Hj. unfold p_no_cheat. cbn. now rewrite Hg.
  - intros i j _ _. simpl.
    pose proof (sigmoid_pos (get x i j)). pose proof (sigmoid_lt_1 (get x i j)).
    lra.
Qed.

Lemma ResponseModelWithCheater_forward_ok (self : ResponseModelWithCheater) :
  length (cheater_logits self) = length (skill (base self)) ->
  exists d,
    ResponseModelWithCheater_forward self = Ok d /\
    has_entries (probs d)
      (length (skill (base self))) (length (difficulty (base self)))
      (fun i j =>
         cheater_prob (cheater_logits self) i
           * p_cheat (skill (base self)) (difficulty (base self)) i j
         + (1 - cheater_prob (cheater_logits self) i)
           * p_no_cheat (skill (base self)) (difficulty (base self)) i j).
Proof.
  intros Hlen. unfold ResponseModelWithCheater_forward.
  destruct (outer_minus_ok (skill (base self)) (difficulty (base self)))
    as (x & Hx & Hn & Hm & Hg).
  rewrite Hx. cbn [bind].
  set (cp := unsqueeze_col (softmax (cheater_logits self))).
  assert (Hcpr : nrow cp = length (skill (base self))).
  { unfold cp. simpl. now rewrite softmax_length. }
  destruct (binop_col_ok Rmult cp
              (tmap (fun s => 0.5 * s + 0.5 * 1) (tmap sigmoid x)))
    as (a & Ha & Han & Ham & Hag); [reflexivity|rewrite Hcpr; simpl; lia|].
  destruct (binop_col_ok Rmult (tmap (fun c => 1 - c) cp) (tmap sigmoid x))
    as (b & Hb & Hbn & Hbm & Hbg);
    [reflexivity|change (nrow cp = nrow x); lia|].
  simpl in Han, Ham, Hbn, Hbm.
  destruct (binop_same_ok Rplus a b) as (p & Hp & Hpn & Hpm & Hpg); [lia|lia|].
  rewrite Ha. cbn [bind]. rewrite Hb. cbn [bind]. rewrite Hp. cbn [bind].
  assert (Hval : forall i j, (i < nrow p)%nat -> (j < ncol p)%nat ->
            get p i j =
            cheater_prob (cheater_logits self) i
              * p_cheat (skill (base self)) (difficulty (base self)) i j
            + (1 - cheater_prob (cheater_logits self) i)
              * p_no_cheat (skill (base self)) (difficulty (base self)) i j).
  { intros i j Hi Hj. rewrite Hpg by lia.
    rewrite Hag, Hbg by (simpl; lia). simpl.
    rewrite Hg by lia. unfold cheater_prob, p_cheat, p_no_cheat. lra. }
  rewrite Bernoulli_init_ok.
  - eexists. split; [reflexivity|]. simpl.
    split; [lia|]. split; [lia|].
    intros i j Hi Hj. apply Hval; lia.
  - intros i j Hi Hj. rewrite Hval by assumption.
    assert (Hi' : (i < length (cheater_logits self))%nat) by lia.
    pose proof (softmax_bounds _ i Hi') as Hc.
    unfold cheater_prob, p_cheat, p_no_cheat.
    set (s := sigmoid _).
    pose proof (sigmoid_pos (nth i (skill (base self)) 0
                             - nth j (difficulty (base self)) 0)) as Hs0.
    pose proof (sigmoid_lt_1 (nth i (skill (base self)) 0
                              - nth j (difficulty (base self)) 0)) as Hs1.
    fold s in Hs0, Hs1.
    set (c := nth i (softmax (cheater_logits self)) 0) in *.
    split; nra.
Qed.

(** ** The log-likelihood *)

Lemma log_prob_cell_binary (p y : R) :
  y = 0 \/ y = 1 ->
  - binary_cross_entropy_with_logits (probs_to_logits p) y
  = log_likelihood_cell p y.
Proof.
  intros Hy. rewrite log_prob_cell. unfold log_likelihood_cell.
  destruct (Req_dec_T y 1) as [H1|H1].
  - subst y. ring.
  - destruct Hy as [H0|H0]; [subst y; ring|contradiction].
Qed.



Lemma log_prob_ok (d : Bernoulli) (answers : Tensor2) :
  nrow (probs d) = nrow answers -> ncol (probs d) = ncol answers ->
  binary answers ->
  exists lp,
    log_prob d answers = Ok lp /\
    has_entries lp (nrow answers) (ncol answers) (log_likelihood d answers).
Proof.
  intros Hr Hc Hb. unfold log_prob.
  assert (Hbc : broadcastable (probs d) answers = true).
  { unfold broadcastable. now rewrite Hr, Hc, !broadcast_dim_same. }
  rewrite Hbc, (tensor_all_boolean _ Hb). cbn [negb].
  destruct (binop_same_ok
              (fun x y => - binary_cross_entropy_with_logits x y)
              (tmap probs_to_logits (probs d)) answers)
    as (lp & Hlp & Hn & Hm & Hg); [exact Hr|exact Hc|].
  exists lp. split; [exact Hlp|].
  split; [exact Hn|]. split; [exact Hm|].
  intros i j Hi Hj. rewrite Hg by assumption. cbn [tmap get].
  apply log_prob_cell_binary. apply Hb; assumption.
Qed.

(** ** Sums and means *)

Lemma sum_map_ext (A : Type) (f g : A -> R) (l : list A) :
  (forall a, In a l -> f a = g a) -> sum (map f l) = sum (map g l).
Proof.
  intros H. rewrite (map_ext_in f g l H). reflexivity.
Qed.

Lemma sum_map_bounds (A : Type) (f : A -> R) (lo hi : R) (l : list A) :
  (forall a, In a l -> lo <= f a <= hi) ->
  INR (length l) * lo <= sum (map f l) <= INR (length l) * hi.
Proof.
  induction l as [|a l IH]; intros H.
  - simpl. lra.
  - cbn [map sum length]. rewrite S_INR.
    pose proof (H a (or_introl eq_refl)) as Ha.
    assert (Hl : forall b, In b l -> lo <= f b <= hi)
      by (intros b Hb; apply H; right; exact Hb).
    specialize (IH Hl). lra.
Qed.

Lemma sum_axis1_cells (t : Tensor2) (n m : nat) (f : nat -> nat -> R) :
  has_entries t n m f -> sum (sum_axis1 t) = sum_cells n m f.
Proof.
  intros (Hn & Hm & Hg). unfold sum_axis1, sum_cells, row.
  rewrite Hn, Hm. apply sum_map_ext. intros i Hi. apply in_seq in Hi.
  apply sum_map_ext. intros j Hj. apply in_seq in Hj. apply Hg; lia.
Qed.

Lemma sum_cells_bounds (n m : nat) (f : nat -> nat -> R) (lo hi : R) :
  (forall i j, (i < n)%nat -> (j < m)%nat -> lo <= f i j <= hi) ->
  INR (n * m) * lo <= sum_cells n m f <= INR (n * m) * hi.
Proof.
  intros H. unfold sum_cells.
  pose proof (sum_map_bounds nat (fun i => sum (map (f i) (seq 0 m)))
                (INR m * lo) (INR m * hi) (seq 0 n)) as Hs.
  rewrite length_seq in Hs. rewrite mult_INR.
  assert (Hrow : forall i, In i (seq 0 n) ->
            INR m * lo <= sum (map (f i) (seq 0 m)) <= INR m * hi).
  { intros i Hi. apply in_seq in Hi.
    pose proof (sum_map_bounds nat (f i) lo hi (seq 0 m)) as Hr.
    rewrite length_seq in Hr. apply Hr. intros j Hj. apply in_seq in Hj.
    apply H; lia. }
  specialize (Hs Hrow). lra.
Qed.

Lemma mean_ok (t : Tensor2) (n m : nat) (f : nat -> nat -> R) :
  has_entries t n m f -> (0 < n)%nat -> (0 < m)%nat ->
  mean t = Ok (sum_cells n m f / INR (n * m)).
Proof.
  intros Ht Hn Hm. unfold mean.
  rewrite (sum_axis1_cells t n m f Ht).
  destruct Ht as (Hr & Hc & _). rewrite Hr, Hc.
  destruct (Nat.eqb_spec (n * m) 0) as [H0|H0]; [nia|reflexivity].
Qed.

Lemma mean1_ok (v : list R) :
  v <> [] -> mean1 v = Ok (sum v / INR (length v)).
Proof. destruct v; [congruence|reflexivity]. Qed.


(** ** The objective *)

Section FitFacts.

Context {M : Type} {module : NNModule M}.
Variable backward : (M -> outcome R) -> M -> list (list R).

Lemma loss_of_ok (model : M) (d : Bernoulli) (answers : Tensor2) (alpha : R) :
  forward model = Ok d ->
  nrow (probs d) = nrow answers -> ncol (probs d) = ncol answers ->
  binary answers ->
  (0 < nrow answers)%nat -> (0 < ncol answers)%nat ->
  difficulty_of model <> [] ->
  loss_of answers alpha model
  = Ok (objective d answers (difficulty_of model) alpha).
Proof.
  intros Hd Hr Hc Hb Hn Hm Hne. unfold loss_of. rewrite Hd. cbn [bind].
  destruct (log_prob_ok d answers Hr Hc Hb) as (lp & Hlp & Hent).
  rewrite Hlp. cbn [bind].
  rewrite (mean_ok lp _ _ _ Hent Hn Hm). cbn [bind].
  rewrite (mean1_ok _ Hne). cbn [bind]. reflexivity.
Qed.

End FitFacts.

(** ** [argmin] and [argmax] *)

Lemma argmin_from_spec (l pre : list R) (best_i : nat) (best : R) :
  (best_i < length pre)%nat ->
  nth best_i pre 0 = best ->
  (forall i, (i < length pre)%nat -> best <= nth i pre 0) ->
  (forall i, (i < best_i)%nat -> best < nth i pre 0) ->
  first_min (pre ++ l) (argmin_from best_i best (length pre) l).
Proof.
  revert pre best_i best.
  induction l as [|x t IH]; intros pre best_i best Hlt Hnth Hmin Hfirst.
  - cbn [argmin_from]. rewrite app_nil_r. subst best.
    split; [exact Hlt|]. split; assumption.
  - cbn [argmin_from].
    replace (pre ++ x :: t) with ((pre ++ [x]) ++ t)
      by (rewrite <- app_assoc; reflexivity).
    replace (S (length pre)) with (length (pre ++ [x]))
      by (rewrite length_app; simpl; lia).
    assert (Hx : nth (length pre) (pre ++ [x]) 0 = x)
      by (rewrite app_nth2, Nat.sub_diag by lia; reflexivity).
    destruct (Rlt_dec x best) as [Hlt'|Hge].
    + replace (length pre) with (length (pre ++ [x]) - 1)%nat at 1
        by (rewrite length_app; simpl; lia).
      apply IH.
      * rewrite length_app. simpl. lia.
      * rewrite length_app. simpl.
        replace (length pre + 1 - 1)%nat with (length pre) by lia.
        exact Hx.
      * intros i Hi. rewrite length_app in Hi. simpl in Hi.
        destruct (Nat.eq_dec i (length pre)) as [->|Hne].
        -- rewrite Hx. lra.
        -- rewrite app_nth1 by lia. specialize (Hmin i ltac:(lia)). lra.
      * intros i Hi. rewrite length_app in Hi. simpl in Hi.
        rewrite app_nth1 by lia. specialize (Hmin i ltac:(lia)). lra.
    + apply IH.
      * rewrite length_app. simpl. lia.
      * rewrite app_nth1 by lia. exact Hnth.
      * intros i Hi. rewrite length_app in Hi. simpl in Hi.
        destruct (Nat.eq_dec i (length pre)) as [->|Hne].
        -- rewrite Hx. lra.
        -- rewrite app_nth1 by lia. apply Hmin. lia.
      * intros i Hi. rewrite app_nth1 by lia. apply Hfirst. exact Hi.
Qed.

Lemma argmin_spec (l : list R) :
  l <> [] -> exists k, argmin l = Ok k /\ first_min l k.
Proof.
  destruct l as [|x t]; [congruence|]. intros _.
  exists (argmin_from 0 x 1 t). split; [reflexivity|].
  apply (argmin_from_spec t [x] 0%nat x).
  - simpl. lia.
  - reflexivity.
  - intros i Hi. simpl in Hi. replace i with 0%nat by lia. simpl. lra.
  - intros i Hi. lia.
Qed.

(** A maximum is a minimum of the negated entries. *)
Lemma argmax_from_argmin_from (l : list R) (best_i : nat) (best : R) (i : nat) :
  argmax_from best_i best i l = argmin_from best_i (- best) i (map Ropp l).
Proof.
  revert best_i best i. induction l as [|x t IH]; intros best_i best i.
  - reflexivity.
  - cbn [argmax_from argmin_from map].
    destruct (Rlt_dec best x); destruct (Rlt_dec (- x) (- best));
      try lra; apply IH.
Qed.

Lemma argmax_spec (l : list R) :
  l <> [] -> exists k, argmax l = Ok k /\ first_max l k.
Proof.
  intros Hl.
  destruct (argmin_spec (map Ropp l)) as (k & Hk & Hlt & Hmin & Hfirst).
  { destruct l; [congruence|discriminate]. }
  assert (Hopp : forall i, (i < length l)%nat ->
            nth i (map Ropp l) 0 = - nth i l 0).
  { intros i Hi. rewrite (nth_indep _ 0 (- 0)) by (rewrite length_map; lia).
    apply (map_nth Ropp). }
  rewrite length_map in Hlt, Hmin.
  exists k. split.
  - destruct l as [|x t]; [congruence|].
    cbn [argmax]. rewrite argmax_from_argmin_from. exact Hk.
  - split; [exact Hlt|]. split.
    + intros i Hi. specialize (Hmin i Hi).
      rewrite !Hopp in Hmin by lia. lra.
    + intros i Hi. specialize (Hfirst i Hi).
      rewrite !Hopp in Hfirst by lia. lra.
Qed.

(** [argmax] is unchanged by a strictly increasing map of the entries. *)
Lemma argmax_from_map_increasing (f : R -> R) (l : list R)
  (best_i : nat) (best : R) (i : nat) :
  (forall a b, a < b -> f a < f b) ->
  argmax_from best_i (f best) i (map f l) = argmax_from best_i best i l.
Proof.
  intros Hf. revert best_i best i.
  induction l as [|x t IH]; intros best_i best i.
  - reflexivity.
  - cbn [argmax_from map].
    destruct (Rlt_dec best x) as [H|H]; destruct (Rlt_dec (f best) (f x)) as [H'|H'].
    + apply IH.
    + exfalso. apply H'. apply Hf. exact H.
    + exfalso. destruct (Rtotal_order best x) as [Hlt|[Heq|Hgt]].
      * contradiction.
      * subst. lra.
      * specialize (Hf _ _ Hgt). lra.
    + apply IH.
Qed.

Lemma argmax_softmax (l : list R) : argmax (softmax l) = argmax l.
Proof.
  destruct l as [|x t]; [reflexivity|].
  unfold softmax. set (s := sum (map exp (x :: t))).
  assert (Hs : 0 < s) by (apply sum_exp_pos; discriminate).
  cbn [map argmax]. f_equal.
  apply (argmax_from_map_increasing (fun y => exp y / s)).
  intros a b Hab. unfold Rdiv. apply Rmult_lt_compat_r.
  - apply Rinv_0_lt_compat. exact Hs.
  - apply exp_increasing. exact Hab.
Qed.

(** ** Facts about the loop of [fit] *)

Section LoopFacts.

Context {M : Type} {module : NNModule M}.
Variable backward : (M -> outcome R) -> M -> list (list R).

Lemma Adam_step_lr (opt : Adam) (params grads : list (list R)) :
  lr (snd (Adam_step opt params grads)) = lr opt.
Proof. reflexivity. Qed.

(** An iteration whose loss is a real number goes through. *)
Lemma epoch_ok (answers : Tensor2) (alpha loss : R) (st : fit_state) :
  loss_of answers alpha (st_model st) = Ok loss ->
  exists st',
    epoch backward answers alpha st = Ok st' /\
    st_losses st' = st_losses st ++ [loss] /\
    lr (st_optimizer st') = lr (st_optimizer st).
Proof.
  intros Hl. unfold epoch. rewrite Hl. cbn [bind].
  destruct (Adam_step _ _ _) as [params optimizer] eqn:Hstep.
  eexists. split; [reflexivity|]. cbn.
  split; [reflexivity|].
  change optimizer with (snd (params, optimizer)). rewrite <- Hstep.
  apply Adam_step_lr.
Qed.

Lemma epoch_inv (answers : Tensor2) (alpha : R) (st st' : fit_state) :
  epoch backward answers alpha st = Ok st' ->
  exists loss,
    loss_of answers alpha (st_model st) = Ok loss /\
    st_losses st' = st_losses st ++ [loss] /\
    lr (st_optimizer st') = lr (st_optimizer st).
Proof.
  intros He.
  destruct (loss_of answers alpha (st_model st)) as [loss| |] eqn:Hl;
    try (unfold epoch in He; rewrite Hl in He; discriminate).
  destruct (epoch_ok answers alpha loss st Hl) as (st1 & H1 & Hls & Hlr).
  rewrite H1 in He. injection He as <-.
  exists loss. split; [reflexivity|]. split; assumption.
Qed.

(** As many losses are recorded as there are epochs, and the learning rate
    of the optimizer never changes. *)
Lemma run_epochs_inv (epochs : nat) (answers : Tensor2) (alpha : R)
  (st st' : fit_state) :
  run_epochs backward epochs answers alpha st = Ok st' ->
  length (st_losses st') = (length (st_losses st) + epochs)%nat /\
  lr (st_optimizer st') = lr (st_optimizer st).
Proof.
  revert st. induction epochs as [|n IH]; intros st Hrun.
  - cbn in Hrun. injection Hrun as <-. split; [lia|reflexivity].
  - cbn [run_epochs] in Hrun.
    destruct (epoch backward answers alpha st) as [st1| |] eqn:He;
      cbn [bind] in Hrun; try discriminate.
    destruct (epoch_inv _ _ _ _ He) as (loss & _ & Hls & Hlr).
    destruct (IH st1 Hrun) as [Hlen Hlr'].
    rewrite Hlen, Hls, length_app, Hlr', Hlr. cbn [length]. split; [lia|reflexivity].
Qed.

(** An exception raised by the first loss evaluation is raised by [fit]. *)
Lemma fit_raises (model : M) (answers : Tensor2) (epochs : nat)
  (alpha : option R) (see_progress : option bool) (e : exn) :
  loss_of answers (fit_alpha alpha) model = Raise e ->
  fit backward model answers (S epochs) alpha see_progress = Raise e.
Proof.
  intros Hl. unfold fit. cbn [run_epochs]. unfold epoch. cbn [st_model].
  rewrite Hl. reflexivity.
Qed.

(** A fit of one epoch whose loss is a real number returns that loss. *)
Lemma fit_one_epoch (model : M) (answers : Tensor2)
  (alpha : option R) (see_progress : option bool) (loss : R) :
  loss_of answers (fit_alpha alpha) model = Ok loss ->
  exists model',
    fit backward model answers 1 alpha see_progress = Ok (model', [loss]).
Proof.
  intros Hl. unfold fit. cbn [run_epochs].
  destruct (epoch_ok answers (fit_alpha alpha) loss
              {| st_model := model; st_optimizer := fit_optimizer model;
                 st_losses := [] |} Hl) as (st' & He & Hls & _).
  rewrite He. cbn [bind]. rewrite Hls. eexists. reflexivity.
Qed.



End LoopFacts.

(** ** Concrete data *)

Lemma all_correct_binary (n m : nat) : binary (all_correct n m).
Proof. intros i j _ _. right. reflexivity. Qed.


Lemma log_probs_ok (model : ResponseModel) (answers : Tensor2) :
  length (skill model) = nrow answers ->
  length (difficulty model) = ncol answers ->
  binary answers ->
  exists d,
    forward model = Ok d /\
    log_probs model answers
    = Ok (map (row_log_likelihood d answers) (seq 0 (nrow answers))).
Proof.
  intros Hs Hd Hb.
  destruct (ResponseModel_forward_ok model) as (d & Hfw & Hn & Hm & _).
  destruct (log_prob_ok d answers) as (lp & Hlp & Hln & Hlm & Hg);
    [lia|lia|exact Hb|].
  exists d. split; [exact Hfw|].
  unfold log_probs. cbn [forward ResponseModel_module].
  rewrite Hfw. cbn [bind]. rewrite Hlp. cbn [bind]. f_equal.
  unfold sum_axis1, row, row_log_likelihood. rewrite Hln, Hlm.
  apply map_ext_in. intros i Hi. apply in_seq in Hi.
  apply sum_map_ext. intros j Hj. apply in_seq in Hj. apply Hg; lia.
Qed.

(** With no respondent the mean of the log-likelihood is the mean of an
    empty tensor: the loss is nan rather than a real number. *)
Lemma loss_of_no_respondent (n_questions : nat) (alpha : R) :
  loss_of (all_correct 0 n_questions) alpha (ResponseModel_init 0 n_questions)
  = Nan.
Proof.
  destruct (ResponseModel_forward_ok (ResponseModel_init 0 n_questions))
    as (d & Hfw & Hn & Hm & _).
  unfold ResponseModel_init, zeros in Hn, Hm. cbn [skill difficulty] in Hn, Hm.
  rewrite repeat_length in Hn, Hm. cbn [repeat length] in Hn.
  destruct (log_prob_ok d (all_correct 0 n_questions))
    as (lp & Hlp & Hln & Hlm & _).
  - exact Hn.
  - exact Hm.
  - apply all_correct_binary.
  - unfold loss_of. cbn [forward ResponseModel_module].
    rewrite Hfw. cbn [bind]. rewrite Hlp. cbn [bind].
    unfold mean. rewrite Hln. reflexivity.
Qed.

(** * float32 rounding *)

Import Float32.






























(** ** The float32 softmax *)







(** * The claims *)

(** C1: for the mixture model, whatever the skill, difficulty and
    cheater-logit vectors, [forward] returns the distribution whose
    probability in cell (i,j) is
    cheater_prob[i] * p_cheat(i,j) + (1 - cheater_prob[i]) * p_no_cheat(i,j),
    with cheater_prob = softmax(cheater_logits),
    p_no_cheat(i,j) = sigmoid(skill[i] - difficulty[j]) and
    p_cheat(i,j) = 0.5 * sigmoid(skill[i] - difficulty[j]) + 0.5. *)
Theorem mixture_probability (skill0 difficulty0 logits : list R) (i j : nat) :
  length logits = length skill0 ->
  (i < length skill0)%nat -> (j < length difficulty0)%nat ->
  exists d,
    ResponseModelWithCheater_forward
      {| base := {| skill := skill0; difficulty := difficulty0 |};
         cheater_logits := logits |} = Ok d /\
    nrow (probs d) = length skill0 /\
    ncol (probs d) = length difficulty0 /\
    get (probs d) i j
    = nth i (softmax logits) 0
        * (0.5 * sigmoid (nth i skill0 0 - nth j difficulty0 0) + 0.5)
      + (1 - nth i (softmax logits) 0)
        * sigmoid (nth i skill0 0 - nth j difficulty0 0).
Proof.
  intros Hlen Hi Hj.
  destruct (ResponseModelWithCheater_forward_ok
              {| base := {| skill := skill0; difficulty := difficulty0 |};
                 cheater_logits := logits |} Hlen)
    as (d & Hd & Hn & Hm & Hg).
  exists d. split; [exact Hd|]. split; [exact Hn|]. split; [exact Hm|].
  rewrite (Hg i j Hi Hj). reflexivity.
Qed.

Lemma mixture_probability_witness :
  exists d,
    ResponseModelWithCheater_forward
      {| base := {| skill := [1; 2]; difficulty := [0] |};
         cheater_logits := [0; 0] |} = Ok d /\
    nrow (probs d) = length [1; 2] /\
    ncol (probs d) = length [0] /\
    get (probs d) 1 0
    = nth 1 (softmax [0; 0]) 0
        * (0.5 * sigmoid (nth 1 [1; 2] 0 - nth 0 [0] 0) + 0.5)
      + (1 - nth 1 (softmax [0; 0]) 0)
        * sigmoid (nth 1 [1; 2] 0 - nth 0 [0] 0).
Proof.
  apply (mixture_probability [1; 2] [0] [0; 0] 1 0); simpl; lia.
Defined.

(** C2: in every iteration of [fit], for every binary response matrix and
    every current parameter state, the objective that is minimized is the
    negative mean of the per-cell log-likelihood of the matrix plus alpha
    times the square of the mean of the difficulty vector: this value is the
    loss that is recorded, the optimizer step is taken with the gradients of
    this loss at the current state, and the loss that is differentiated has
    this value at every parameter state. *)
Theorem fit_loss_is_objective {M : Type} {module : NNModule M}
  (backward : (M -> outcome R) -> M -> list (list R))
  (st : fit_state) (d : Bernoulli) (answers : Tensor2) (alpha : R) :
  forward (st_model st) = Ok d ->
  nrow (probs d) = nrow answers -> ncol (probs d) = ncol answers ->
  binary answers ->
  (0 < nrow answers)%nat -> (0 < ncol answers)%nat ->
  difficulty_of (st_model st) <> [] ->
  exists st',
    epoch backward answers alpha st = Ok st' /\
    st_losses st'
    = st_losses st ++
      [ - (sum_cells (nrow answers) (ncol answers) (log_likelihood d answers)
           / INR (nrow answers * ncol answers))
        + alpha * (sum (difficulty_of (st_model st))
                   / INR (length (difficulty_of (st_model st)))) ^ 2 ] /\
    st_model st'
    = load_parameters (st_model st)
        (fst (Adam_step (st_optimizer st) (parameters (st_model st))
                (backward (loss_of answers alpha) (st_model st)))) /\
    st_optimizer st'
    = snd (Adam_step (st_optimizer st) (parameters (st_model st))
             (backward (loss_of answers alpha) (st_model st))) /\
    forall model' d',
      forward model' = Ok d' ->
      nrow (probs d') = nrow answers -> ncol (probs d') = ncol answers ->
      difficulty_of model' <> [] ->
      loss_of answers alpha model'
      = Ok (- (sum_cells (nrow answers) (ncol answers)
                 (log_likelihood d' answers)
               / INR (nrow answers * ncol answers))
            + alpha * (sum (difficulty_of model')
                       / INR (length (difficulty_of model'))) ^ 2).
Proof.
  intros Hd Hr Hc Hb Hn Hm Hne.
  pose proof (loss_of_ok (st_model st) d answers alpha Hd Hr Hc Hb Hn Hm Hne)
    as Hl.
  unfold epoch. rewrite Hl. cbn [bind].
  destruct (Adam_step (st_optimizer st) (parameters (st_model st))
              (backward (loss_of answers alpha) (st_model st)))
    as [params optimizer].
  eexists. split; [reflexivity|]. cbn [st_losses st_model st_optimizer fst snd].
  split; [reflexivity|]. split; [reflexivity|]. split; [reflexivity|].
  intros model' d' Hd' Hr' Hc' Hne'.
  apply (loss_of_ok model' d' answers alpha Hd' Hr' Hc' Hb Hn Hm Hne').
Qed.

Lemma example_answers_binary :
  binary (tensor_of_rows [[1; 0; 1]; [0; 0; 1]]).
Proof.
  intros i j Hi Hj. cbn in Hi, Hj.
  destruct i as [|[|i]]; try lia;
    destruct j as [|[|[|j]]]; try lia; cbn; auto.
Qed.

Lemma fit_loss_is_objective_witness :
  exists d st',
    forward {| skill := [1; -2]; difficulty := [0; 3; 1] |} = Ok d /\
    epoch zero_gradients (tensor_of_rows [[1; 0; 1]; [0; 0; 1]]) (1 / 100)
      {| st_model := {| skill := [1; -2]; difficulty := [0; 3; 1] |};
         st_optimizer :=
           fit_optimizer {| skill := [1; -2]; difficulty := [0; 3; 1] |};
         st_losses := [ln 2] |} = Ok st' /\
    st_losses st'
    = [ln 2] ++
      [ - (sum_cells 2 3
             (log_likelihood d (tensor_of_rows [[1; 0; 1]; [0; 0; 1]]))
           / INR (2 * 3))
        + (1 / 100) * (sum [0; 3; 1] / INR 3) ^ 2 ] /\
    sum [0; 3; 1] / INR 3 = 4 / 3.
Proof.
  destruct (ResponseModel_forward_ok
              {| skill := [1; -2]; difficulty := [0; 3; 1] |})
    as (d & Hd & Hn & Hm & _).
  exists d.
  destruct (fit_loss_is_objective zero_gradients
              {| st_model := {| skill := [1; -2]; difficulty := [0; 3; 1] |};
                 st_optimizer :=
                   fit_optimizer {| skill := [1; -2]; difficulty := [0; 3; 1] |};
                 st_losses := [ln 2] |}
              d (tensor_of_rows [[1; 0; 1]; [0; 0; 1]]) (1 / 100))
    as (st' & He & Hls & _).
  - exact Hd.
  - rewrite Hn. reflexivity.
  - rewrite Hm. reflexivity.
  - apply example_answers_binary.
  - simpl. lia.
  - simpl. lia.
  - simpl. discriminate.
  - exists st'. split; [exact Hd|]. split; [exact He|]. split; [exact Hls|].
    simpl. lra.
Defined.

(** C3 does not hold as stated: no call of [fit] makes the optimizer use a
    learning rate other than 0.01 (0.5, say), and the default of [alpha] is
    1.0, which is not near 1e-2. *)
Lemma fit_configuration_counterexample :
  (forall (M : Type) (module : NNModule M) (model : M),
      lr (fit_optimizer model) <> 0.5) /\
  fit_alpha None = 1 /\
  0.9 < Rabs (fit_alpha None - 1 / 100).
Proof.
  split; [|split].
  - intros M module model. cbn. lra.
  - cbn. lra.
  - cbn. rewrite Rabs_right; lra.
Qed.

(** C3, amended: the epoch count and alpha are arguments of [fit] (a fit
    that returns has recorded exactly [epochs] losses; the alpha used is the
    one passed, and 1.0 when none is passed), whereas the learning rate is
    the constant 0.01, at the start and after every step of the optimizer. *)
Theorem fit_configuration {M : Type} {module : NNModule M}
  (backward : (M -> outcome R) -> M -> list (list R))
  (model : M) (answers : Tensor2) (epochs : nat) (alpha : option R)
  (see_progress : option bool) (st : fit_state) :
  run_epochs backward epochs answers (fit_alpha alpha)
    {| st_model := model; st_optimizer := fit_optimizer model;
       st_losses := [] |} = Ok st ->
  fit backward model answers epochs alpha see_progress
  = Ok (st_model st, st_losses st) /\
  length (st_losses st) = epochs /\
  (forall a, fit_alpha (Some a) = a) /\
  fit_alpha None = 1 /\
  lr (fit_optimizer model) = 1 / 100 /\
  lr (st_optimizer st) = 1 / 100.
Proof.
  intros Hrun.
  destruct (run_epochs_inv backward _ _ _ _ _ Hrun) as [Hlen Hlr].
  cbn [st_losses st_optimizer length] in Hlen, Hlr.
  split.
  { unfold fit. rewrite Hrun. reflexivity. }
  split; [exact Hlen|].
  split; [reflexivity|].
  split; [cbn; lra|].
  assert (H0 : lr (fit_optimizer model) = 1 / 100) by (cbn; lra).
  split; [exact H0|]. rewrite Hlr. exact H0.
Qed.

Lemma run_one_epoch {M : Type} {module : NNModule M}
  (backward : (M -> outcome R) -> M -> list (list R))
  (answers : Tensor2) (alpha loss : R) (st : fit_state) :
  loss_of answers alpha (st_model st) = Ok loss ->
  exists st', run_epochs backward 1 answers alpha st = Ok st'.
Proof.
  intros Hl. cbn [run_epochs].
  destruct (epoch_ok backward answers alpha loss st Hl) as (st' & He & _).
  exists st'. rewrite He. reflexivity.
Qed.

Lemma fit_configuration_witness :
  exists st,
    run_epochs zero_gradients 1 (all_correct 2 3) (fit_alpha (Some (1 / 100)))
      {| st_model := ResponseModel_init 2 3;
         st_optimizer := fit_optimizer (ResponseModel_init 2 3);
         st_losses := [] |} = Ok st /\
    (fit zero_gradients (ResponseModel_init 2 3) (all_correct 2 3) 1
       (Some (1 / 100)) (Some false)
     = Ok (st_model st, st_losses st) /\
     length (st_losses st) = 1%nat /\
     (forall a, fit_alpha (Some a) = a) /\
     fit_alpha None = 1 /\
     lr (fit_optimizer (ResponseModel_init 2 3)) = 1 / 100 /\
     lr (st_optimizer st) = 1 / 100).
Proof.
  destruct (ResponseModel_forward_ok (ResponseModel_init 2 3))
    as (d & Hd & Hn & Hm & _).
  destruct (run_one_epoch zero_gradients (all_correct 2 3)
              (fit_alpha (Some (1 / 100)))
              (objective d (all_correct 2 3)
                 (difficulty_of (ResponseModel_init 2 3))
                 (fit_alpha (Some (1 / 100))))
              {| st_model := ResponseModel_init 2 3;
                 st_optimizer := fit_optimizer (ResponseModel_init 2 3);
                 st_losses := [] |}) as (st & Hst).
  - apply loss_of_ok.
    + exact Hd.
    + rewrite Hn. reflexivity.
    + rewrite Hm. reflexivity.
    + apply all_correct_binary.
    + simpl. lia.
    + simpl. lia.
    + simpl. discriminate.
  - exists st. split; [exact Hst|].
    apply (fit_configuration zero_gradients (ResponseModel_init 2 3)
             (all_correct 2 3) 1 (Some (1 / 100)) (Some false) st Hst).
Defined.

(** C4: the baseline scorer computes, for each respondent i, the sum over
    the items j of the per-cell log-likelihood of the respondent's answer
    row under the fitted baseline model, and returns the (first) index at
    which these row sums are minimal. *)
Theorem baseline_scorer (model : ResponseModel) (answers : Tensor2) :
  length (skill model) = nrow answers ->
  length (difficulty model) = ncol answers ->
  binary answers ->
  (0 < nrow answers)%nat ->
  exists d k,
    ResponseModel_forward model = Ok d /\
    log_probs model answers
    = Ok (map (fun i => sum (map (log_likelihood d answers i)
                               (seq 0 (ncol answers))))
              (seq 0 (nrow answers))) /\
    predicted_cheater model answers = Ok k /\
    (k < nrow answers)%nat /\
    (forall i, (i < nrow answers)%nat ->
       row_log_likelihood d answers k <= row_log_likelihood d answers i) /\
    (forall i, (i < k)%nat ->
       row_log_likelihood d answers k < row_log_likelihood d answers i).
Proof.
  intros Hs Hd Hb Hn.
  destruct (log_probs_ok model answers Hs Hd Hb) as (d & Hfw & Hlp).
  set (l := map (row_log_likelihood d answers) (seq 0 (nrow answers))) in *.
  assert (Hlen : length l = nrow answers)
    by (unfold l; rewrite length_map, length_seq; reflexivity).
  assert (Hnth : forall i, (i < nrow answers)%nat ->
            nth i l 0 = row_log_likelihood d answers i).
  { intros i Hi. unfold l.
    rewrite (nth_indep _ 0 (row_log_likelihood d answers 0))
      by (rewrite length_map, length_seq; exact Hi).
    rewrite (map_nth (row_log_likelihood d answers)), seq_nth by exact Hi.
    reflexivity. }
  destruct (argmin_spec l) as (k & Hk & Hkl & Hmin & Hfirst).
  { intros Hnil. rewrite Hnil in Hlen. simpl in Hlen. lia. }
  rewrite Hlen in Hkl, Hmin.
  exists d, k. split; [exact Hfw|]. split; [exact Hlp|]. split.
  { unfold predicted_cheater. rewrite Hlp. cbn [bind]. exact Hk. }
  split; [exact Hkl|]. split.
  - intros i Hi. rewrite <- !Hnth by assumption. apply Hmin. exact Hi.
  - intros i Hi. rewrite <- !Hnth by lia. apply Hfirst. exact Hi.
Qed.

(** Within the clamping interval the log-likelihood of a cell is the
    logarithm of the probability of the observed answer. *)
Lemma log_likelihood_cell_sigmoid (x : R) :
  -14 <= x <= 14 ->
  log_likelihood_cell (sigmoid x) 1 = ln (sigmoid x) /\
  log_likelihood_cell (sigmoid x) 0 = ln (sigmoid (- x)).
Proof.
  intros Hx. unfold log_likelihood_cell.
  rewrite (clamp_probs_id _ (sigmoid_within_clamp x Hx)).
  rewrite sigmoid_opp. split.
  - destruct (Req_dec_T 1 1); [reflexivity|contradiction].
  - destruct (Req_dec_T 0 1); [lra|reflexivity].
Qed.

Lemma ln_sigmoid_nonneg (x : R) : 0 <= x -> - ln 2 <= ln (sigmoid x).
Proof.
  intros Hx. rewrite <- ln_Rinv by lra. rewrite <- sigmoid_0.
  pose proof (sigmoid_pos 0).
  destruct Hx as [Hx | <-]; [|lra].
  left. apply ln_increasing; [assumption|]. apply sigmoid_increasing. exact Hx.
Qed.

Lemma ln_sigmoid_neg (x : R) : x < 0 -> ln (sigmoid x) < - ln 2.
Proof.
  intros Hx. rewrite <- ln_Rinv by lra. rewrite <- sigmoid_0.
  apply ln_increasing; [apply sigmoid_pos|]. apply sigmoid_increasing. exact Hx.
Qed.

(** An example with distinct row sums: the second respondent, of skill -2,
    answers every question correctly, also the two that are hard for them. *)
Lemma example_row_sums (d : Bernoulli) :
  ResponseModel_forward {| skill := [1; -2]; difficulty := [0; 3; 1] |} = Ok d ->
  row_log_likelihood d (tensor_of_rows [[1; 0; 1]; [1; 1; 1]]) 1
  < row_log_likelihood d (tensor_of_rows [[1; 0; 1]; [1; 1; 1]]) 0.
Proof.
  intros Hd.
  destruct (ResponseModel_forward_ok
              {| skill := [1; -2]; difficulty := [0; 3; 1] |})
    as (d0 & Hd0 & _ & _ & Hg).
  assert (d0 = d) by congruence. subst d0.
  unfold row_log_likelihood, log_likelihood.
  cbn [tensor_of_rows ncol nrow get hd length seq map sum nth].
  cbn [skill difficulty length] in Hg.
  rewrite !Hg by lia. unfold p_no_cheat. cbn [nth].
  destruct (log_likelihood_cell_sigmoid (1 - 0)) as [H00 _]; [lra|].
  destruct (log_likelihood_cell_sigmoid (1 - 3)) as [_ H01]; [lra|].
  destruct (log_likelihood_cell_sigmoid (1 - 1)) as [H02 _]; [lra|].
  destruct (log_likelihood_cell_sigmoid (-2 - 0)) as [H10 _]; [lra|].
  destruct (log_likelihood_cell_sigmoid (-2 - 3)) as [H11 _]; [lra|].
  destruct (log_likelihood_cell_sigmoid (-2 - 1)) as [H12 _]; [lra|].
  rewrite H00, H01, H02, H10, H11, H12.
  pose proof (ln_sigmoid_nonneg (1 - 0) ltac:(lra)).
  pose proof (ln_sigmoid_nonneg (- (1 - 3)) ltac:(lra)).
  pose proof (ln_sigmoid_nonneg (1 - 1) ltac:(lra)).
  pose proof (ln_sigmoid_neg (-2 - 0) ltac:(lra)).
  pose proof (ln_sigmoid_neg (-2 - 3) ltac:(lra)).
  pose proof (ln_sigmoid_neg (-2 - 1) ltac:(lra)).
  lra.
Qed.

Lemma example_answers_binary' :
  binary (tensor_of_rows [[1; 0; 1]; [1; 1; 1]]).
Proof.
  intros i j Hi Hj. cbn in Hi, Hj.
  destruct i as [|[|i]]; try lia;
    destruct j as [|[|[|j]]]; try lia; cbn; auto.
Qed.

Lemma baseline_scorer_witness :
  exists d k,
    ResponseModel_forward {| skill := [1; -2]; difficulty := [0; 3; 1] |}
    = Ok d /\
    log_probs {| skill := [1; -2]; difficulty := [0; 3; 1] |}
      (tensor_of_rows [[1; 0; 1]; [1; 1; 1]])
    = Ok (map (fun i =>
                 sum (map (log_likelihood d
                             (tensor_of_rows [[1; 0; 1]; [1; 1; 1]]) i)
                        (seq 0 3)))
              (seq 0 2)) /\
    predicted_cheater {| skill := [1; -2]; difficulty := [0; 3; 1] |}
      (tensor_of_rows [[1; 0; 1]; [1; 1; 1]]) = Ok k /\
    (k < 2)%nat /\
    (forall i, (i < 2)%nat ->
       row_log_likelihood d (tensor_of_rows [[1; 0; 1]; [1; 1; 1]]) k
       <= row_log_likelihood d (tensor_of_rows [[1; 0; 1]; [1; 1; 1]]) i) /\
    (forall i, (i < k)%nat ->
       row_log_likelihood d (tensor_of_rows [[1; 0; 1]; [1; 1; 1]]) k
       < row_log_likelihood d (tensor_of_rows [[1; 0; 1]; [1; 1; 1]]) i) /\
    k = 1%nat.
Proof.
  destruct (baseline_scorer {| skill := [1; -2]; difficulty := [0; 3; 1] |}
              (tensor_of_rows [[1; 0; 1]; [1; 1; 1]]))
    as (d & k & Hd & Hlp & Hk & Hlt & Hmin & Hfirst).
  - reflexivity.
  - reflexivity.
  - apply example_answers_binary'.
  - simpl. lia.
  - exists d, k. split; [exact Hd|]. split; [exact Hlp|]. split; [exact Hk|].
    split; [exact Hlt|]. split; [exact Hmin|]. split; [exact Hfirst|].
    pose proof (example_row_sums d Hd) as Hrows.
    cbn [tensor_of_rows nrow length] in Hlt, Hmin.
    destruct k as [|[|k]]; [|reflexivity|lia].
    pose proof (Hmin 1%nat ltac:(lia)). lra.
Defined.

(** C5: the mixture scorer returns the (first) index at which
    softmax(cheater_logits) is maximal; it is a function of the fitted model
    alone and does not take the response matrix. *)
Theorem mixture_scorer (model : ResponseModelWithCheater) :
  cheater_logits model <> [] ->
  exists k,
    predicted_cheater_with_cheater model = Ok k /\
    (k < length (cheater_logits model))%nat /\
    (forall i, (i < length (cheater_logits model))%nat ->
       cheater_prob (cheater_logits model) i
       <= cheater_prob (cheater_logits model) k) /\
    (forall i, (i < k)%nat ->
       cheater_prob (cheater_logits model) i
       < cheater_prob (cheater_logits model) k).
Proof.
  intros Hne. unfold predicted_cheater_with_cheater, cheater_prob.
  destruct (argmax_spec (softmax (cheater_logits model)))
    as (k & Hk & Hlt & Hmax & Hfirst).
  { unfold softmax. destruct (cheater_logits model); [congruence|discriminate]. }
  rewrite softmax_length in Hlt, Hmax.
  exists k. split; [exact Hk|]. split; [exact Hlt|]. split; assumption.
Qed.

Lemma mixture_scorer_witness :
  exists k,
    predicted_cheater_with_cheater
      {| base := ResponseModel_init 3 2; cheater_logits := [0; 2; 1] |} = Ok k /\
    (k < length [0; 2; 1])%nat /\
    (forall i, (i < length [0; 2; 1])%nat ->
       cheater_prob [0; 2; 1] i <= cheater_prob [0; 2; 1] k) /\
    (forall i, (i < k)%nat ->
       cheater_prob [0; 2; 1] i < cheater_prob [0; 2; 1] k).
Proof.
  apply (mixture_scorer
           {| base := ResponseModel_init 3 2; cheater_logits := [0; 2; 1] |}).
  discriminate.
Defined.

(** C6: adding a constant C to every skill and to every difficulty leaves
    every entry of the baseline probability matrix
    sigmoid(skill[i] - difficulty[j]) unchanged. *)
Theorem translation_invariance (skill0 difficulty0 : list R) (C : R) (i j : nat) :
  (i < length skill0)%nat -> (j < length difficulty0)%nat ->
  exists d d',
    ResponseModel_forward {| skill := skill0; difficulty := difficulty0 |}
    = Ok d /\
    ResponseModel_forward
      {| skill := shift C skill0; difficulty := shift C difficulty0 |}
    = Ok d' /\
    nrow (probs d') = nrow (probs d) /\
    ncol (probs d') = ncol (probs d) /\
    get (probs d) i j = sigmoid (nth i skill0 0 - nth j difficulty0 0) /\
    get (probs d') i j = get (probs d) i j.
Proof.
  intros Hi Hj.
  destruct (ResponseModel_forward_ok
              {| skill := skill0; difficulty := difficulty0 |})
    as (d & Hd & Hn & Hm & Hg).
  destruct (ResponseModel_forward_ok
              {| skill := shift C skill0; difficulty := shift C difficulty0 |})
    as (d' & Hd' & Hn' & Hm' & Hg').
  cbn [skill difficulty] in *.
  unfold shift in Hn', Hm', Hg', Hd'. rewrite length_map in Hn', Hm'.
  rewrite !length_map in Hg'.
  exists d, d'. split; [exact Hd|]. split; [exact Hd'|].
  split; [lia|]. split; [lia|]. unfold shift.
  rewrite (Hg i j Hi Hj), (Hg' i j Hi Hj). unfold p_no_cheat.
  split; [reflexivity|].
  rewrite (nth_indep (map _ skill0) 0 (0 + C))
    by (rewrite length_map; exact Hi).
  rewrite (nth_indep (map _ difficulty0) 0 (0 + C))
    by (rewrite length_map; exact Hj).
  rewrite !(map_nth (fun x => x + C)). f_equal. ring.
Qed.

Lemma translation_invariance_witness :
  exists d d',
    ResponseModel_forward {| skill := [1; -2]; difficulty := [0; 3; 1] |}
    = Ok d /\
    ResponseModel_forward
      {| skill := shift 5 [1; -2]; difficulty := shift 5 [0; 3; 1] |}
    = Ok d' /\
    nrow (probs d') = nrow (probs d) /\
    ncol (probs d') = ncol (probs d) /\
    get (probs d) 1 2 = sigmoid (nth 1 [1; -2] 0 - nth 2 [0; 3; 1] 0) /\
    get (probs d') 1 2 = get (probs d) 1 2.
Proof.
  apply (translation_invariance [1; -2] [0; 3; 1] 5 1 2); simpl; lia.
Defined.

Lemma eps_approx : / 10000000 < eps < 12 / 100000000.
Proof.
  unfold eps. split.
  - apply Rinv_lt_contravar; lra.
  - apply (Rmult_lt_reg_r 8388608); [lra|].
    rewrite Rinv_l by lra. lra.
Qed.

(** C7: in the log-likelihood of the mixture model, the mixture probability
    of every cell is clamped into [eps, 1 - eps], eps = 2^-23 (about
    1.2e-7), and the logarithm is taken of the clamped value (or of its
    complement, for an answer 0). *)
Theorem mixture_log_likelihood_clamped
  (model : ResponseModelWithCheater) (answers : Tensor2) (i j : nat) :
  length (cheater_logits model) = length (skill (base model)) ->
  length (skill (base model)) = nrow answers ->
  length (difficulty (base model)) = ncol answers ->
  binary answers ->
  (i < nrow answers)%nat -> (j < ncol answers)%nat ->
  exists d lp,
    ResponseModelWithCheater_forward model = Ok d /\
    log_prob d answers = Ok lp /\
    let q := Rmin (Rmax (get (probs d) i j) eps) (1 - eps) in
    eps <= q <= 1 - eps /\
    get lp i j
    = (if Req_dec_T (get answers i j) 1 then ln q else ln (1 - q)) /\
    / 10000000 < eps < 12 / 100000000.
Proof.
  intros Hlen Hs Hd Hb Hi Hj.
  destruct (ResponseModelWithCheater_forward_ok model Hlen)
    as (d & Hfw & Hn & Hm & _).
  destruct (log_prob_ok d answers) as (lp & Hlp & _ & _ & Hg);
    [lia|lia|exact Hb|].
  exists d, lp. split; [exact Hfw|]. split; [exact Hlp|].
  cbv zeta. split; [apply clamp_probs_bounds|].
  split; [|exact eps_approx].
  rewrite (Hg i j Hi Hj). reflexivity.
Qed.

(** From 30 on the sigmoid lies above the clamping interval. *)
Lemma sigmoid_above_clamp (x : R) : 30 <= x -> 1 - eps < sigmoid x.
Proof.
  intros Hx.
  assert (Hpow : 1073741824 <= exp 30).
  { replace 30 with (INR 30) by (simpl; lra). rewrite exp_INR.
    pose proof (exp_ineq1_le 1) as H2.
    apply Rle_trans with (2 ^ 30); [simpl; lra|].
    apply pow_incr. lra. }
  assert (Hexp : exp 30 <= exp x).
  { destruct Hx as [Hlt | <-]; [left; apply exp_increasing; exact Hlt|lra]. }
  pose proof (sigmoid_opp x) as Hopp.
  assert (Hs : sigmoid (- x) < eps).
  { unfold sigmoid, eps, Rdiv. rewrite Ropp_involutive, Rmult_1_l.
    apply Rinv_lt_contravar; [|lra].
    apply Rmult_lt_0_compat; lra. }
  lra.
Qed.

Lemma saturated_answers_binary : binary (tensor_of_rows [[1]; [0]]).
Proof.
  intros i j Hi Hj. cbn in Hi, Hj.
  destruct i as [|[|i]]; try lia; destruct j as [|j]; try lia; cbn; auto.
Qed.

Lemma mixture_log_likelihood_clamped_witness :
  exists d lp,
    ResponseModelWithCheater_forward
      {| base := {| skill := [30; 0]; difficulty := [0] |};
         cheater_logits := [0; 0] |} = Ok d /\
    log_prob d (tensor_of_rows [[1]; [0]]) = Ok lp /\
    (let q := Rmin (Rmax (get (probs d) 0 0) eps) (1 - eps) in
     eps <= q <= 1 - eps /\
     get lp 0 0
     = (if Req_dec_T (get (tensor_of_rows [[1]; [0]]) 0 0) 1
        then ln q else ln (1 - q)) /\
     / 10000000 < eps < 12 / 100000000) /\
    1 - eps < get (probs d) 0 0 /\
    get lp 0 0 = ln (1 - eps) /\
    get lp 0 0 < ln (get (probs d) 0 0).
Proof.
  destruct (mixture_log_likelihood_clamped
              {| base := {| skill := [30; 0]; difficulty := [0] |};
                 cheater_logits := [0; 0] |}
              (tensor_of_rows [[1]; [0]]) 0 0)
    as (d & lp & Hfw & Hlp & Hrest).
  - reflexivity.
  - reflexivity.
  - reflexivity.
  - apply saturated_answers_binary.
  - simpl. lia.
  - simpl. lia.
  - exists d, lp. split; [exact Hfw|]. split; [exact Hlp|].
    split; [exact Hrest|].
    cbv zeta in Hrest. destruct Hrest as (_ & Hcell & _).
    destruct (ResponseModelWithCheater_forward_ok
                {| base := {| skill := [30; 0]; difficulty := [0] |};
                   cheater_logits := [0; 0] |} eq_refl)
      as (d0 & Hfw0 & _ & _ & Hg).
    assert (d0 = d) by congruence. subst d0.
    assert (Hp : 1 - eps < get (probs d) 0 0).
    { rewrite (Hg 0%nat 0%nat) by (simpl; lia).
      cbn [base skill difficulty cheater_logits].
      pose proof (softmax_bounds [0; 0] 0 ltac:(simpl; lia)) as Hc.
      unfold cheater_prob, p_cheat, p_no_cheat. cbn [nth] in *.
      pose proof (sigmoid_above_clamp (30 - 0) ltac:(lra)) as Hs.
      pose proof (sigmoid_lt_1 (30 - 0)) as Hs1.
      pose proof eps_pos.
      set (s := sigmoid (30 - 0)) in *.
      set (c := match softmax [0; 0] with
                | [] => 0
                | x :: _ => x
                end) in *.
      nra. }
    assert (Hq : Rmin (Rmax (get (probs d) 0 0) eps) (1 - eps) = 1 - eps).
    { pose proof eps_pos. pose proof eps_lt_half.
      unfold Rmin, Rmax.
      destruct (Rle_dec (get (probs d) 0 0) eps);
        destruct (Rle_dec _ (1 - eps)); lra. }
    assert (Hl : get lp 0 0 = ln (1 - eps)).
    { rewrite Hcell, Hq. cbn [tensor_of_rows get nth].
      destruct (Req_dec_T 1 1); [reflexivity|contradiction]. }
    split; [exact Hp|]. split; [exact Hl|].
    rewrite Hl. pose proof eps_lt_half.
    apply ln_increasing; lra.
Defined.















(** In exact arithmetic the softmax is strictly increasing, and the argmax
    of softmax(cheater_logits) is the argmax of the cheater logits. *)
Lemma mixture_scorer_is_argmax_of_logits (model : ResponseModelWithCheater) :
  predicted_cheater_with_cheater model = argmax (cheater_logits model).
Proof.
  unfold predicted_cheater_with_cheater. apply argmax_softmax.
Qed.




(** * Further properties of the models *)

Lemma sum_zeros (n : nat) : sum (zeros n) = 0.
Proof.
  unfold zeros. induction n as [|n IH]; simpl; [reflexivity|].
  rewrite IH. ring.
Qed.

Lemma nth_zeros (n i : nat) : nth i (zeros n) 0 = 0.
Proof.
  unfold zeros. revert i. induction n as [|n IH]; intros [|i]; simpl;
    try reflexivity. apply IH.
Qed.

Lemma zeros_length (n : nat) : length (zeros n) = n.
Proof. unfold zeros. apply repeat_length. Qed.

Lemma sum_cells_const (n m : nat) (f : nat -> nat -> R) (c : R) :
  (forall i j, (i < n)%nat -> (j < m)%nat -> f i j = c) ->
  sum_cells n m f = INR (n * m) * c.
Proof.
  intros H.
  pose proof (sum_cells_bounds n m f c c) as Hb.
  assert (Hc : forall i j, (i < n)%nat -> (j < m)%nat -> c <= f i j <= c)
    by (intros i j Hi Hj; rewrite (H i j Hi Hj); lra).
  specialize (Hb Hc). lra.
Qed.

Lemma ResponseModel_init_entries (n_students n_questions : nat) :
  exists d,
    ResponseModel_forward (ResponseModel_init n_students n_questions) = Ok d /\
    has_entries (probs d) n_students n_questions (fun _ _ => / 2).
Proof.
  destruct (ResponseModel_forward_ok (ResponseModel_init n_students n_questions))
    as (d & Hd & Hn & Hm & Hg).
  cbn [ResponseModel_init skill difficulty] in Hn, Hm, Hg.
  rewrite zeros_length in Hn, Hm, Hg. rewrite zeros_length in Hg.
  exists d. split; [exact Hd|]. split; [exact Hn|]. split; [exact Hm|].
  intros i j Hi Hj. rewrite (Hg i j Hi Hj). unfold p_no_cheat.
  rewrite !nth_zeros, Rminus_diag. exact sigmoid_0.
Qed.

Lemma log_likelihood_cell_half (y : R) : log_likelihood_cell (/ 2) y = - ln 2.
Proof.
  pose proof eps_pos. pose proof eps_lt_half.
  unfold log_likelihood_cell. rewrite clamp_probs_id by lra.
  replace (1 - / 2) with (/ 2) by lra.
  destruct (Req_dec_T y 1); apply ln_Rinv; lra.
Qed.

(** The loss of a freshly constructed baseline model. *)
Lemma loss_of_init (n_students n_questions : nat) (answers : Tensor2)
  (alpha : R) :
  nrow answers = n_students -> ncol answers = n_questions ->
  binary answers -> (0 < n_students)%nat -> (0 < n_questions)%nat ->
  loss_of answers alpha (ResponseModel_init n_students n_questions) = Ok (ln 2).
Proof.
  intros Hr Hc Hb Hn Hm.
  destruct (ResponseModel_init_entries n_students n_questions)
    as (d & Hd & Hdn & Hdm & Hg).
  rewrite (loss_of_ok (ResponseModel_init n_students n_questions) d answers alpha);
    try assumption; try lia.
  - f_equal. unfold objective. cbn [difficulty_of ResponseModel_module
      ResponseModel_init difficulty].
    rewrite sum_zeros, zeros_length, Hr, Hc.
    rewrite (sum_cells_const n_students n_questions _ (- ln 2)).
    + assert (Hpos : 0 < INR (n_students * n_questions))
        by (apply lt_0_INR; nia).
      assert (Hm0 : 0 < INR n_questions) by (apply lt_0_INR; lia).
      field. split; lra.
    + intros i j Hi Hj. unfold log_likelihood. rewrite Hg by assumption.
      apply log_likelihood_cell_half.
  - cbn [difficulty_of ResponseModel_module ResponseModel_init difficulty].
    intros Hnil. pose proof (zeros_length n_questions) as Hl.
    rewrite Hnil in Hl. simpl in Hl. lia.
Qed.

Lemma sum_exp_zeros (n : nat) : sum (map exp (zeros n)) = INR n.
Proof.
  unfold zeros. induction n as [|n IH].
  - reflexivity.
  - cbn [repeat map sum]. rewrite IH, exp_0, S_INR. ring.
Qed.

Lemma argmax_from_zeros (n best_i i : nat) :
  argmax_from best_i 0 i (zeros n) = best_i.
Proof.
  unfold zeros. revert i. induction n as [|n IH]; intros i.
  - reflexivity.
  - cbn [repeat argmax_from].
    destruct (Rlt_dec 0 0) as [H|H]; [lra|]. apply IH.
Qed.

Lemma run_epochs_first_loss {M : Type} {module : NNModule M}
  (backward : (M -> outcome R) -> M -> list (list R))
  (epochs : nat) (answers : Tensor2) (alpha loss : R) (st st' : fit_state) :
  loss_of answers alpha (st_model st) = Ok loss ->
  run_epochs backward (S epochs) answers alpha st = Ok st' ->
  exists rest, st_losses st' = st_losses st ++ loss :: rest.
Proof.
  intros Hl Hrun. cbn [run_epochs] in Hrun.
  destruct (epoch_ok backward answers alpha loss st Hl) as (st1 & He & Hls & _).
  rewrite He in Hrun. cbn [bind] in Hrun. clear He Hl.
  assert (Hgen : forall n s s', run_epochs backward n answers alpha s = Ok s' ->
            exists rest, st_losses s' = st_losses s ++ rest).
  { clear. induction n as [|n IH]; intros s s' Hr.
    - cbn in Hr. injection Hr as <-. exists []. now rewrite app_nil_r.
    - cbn [run_epochs] in Hr.
      destruct (epoch backward answers alpha s) as [s1| |] eqn:He;
        cbn [bind] in Hr; try discriminate.
      destruct (epoch_inv backward _ _ _ _ He) as (l & _ & Hls & _).
      destruct (IH s1 s' Hr) as (rest & Hrest).
      exists (l :: rest). rewrite Hrest, Hls, <- app_assoc. reflexivity. }
  destruct (Hgen epochs st1 st' Hrun) as (rest & Hrest).
  exists rest. rewrite Hrest, Hls, <- app_assoc. reflexivity.
Qed.

(** X1: [ResponseModel.forward] never raises: it returns a distribution of
    shape (len(skill), len(difficulty)) whose probabilities all lie in [0,1],
    so that the argument validation of [Bernoulli] passes for every
    parameter state. *)
Theorem baseline_probability_in_unit_interval (model : ResponseModel) :
  exists d,
    ResponseModel_forward model = Ok d /\
    nrow (probs d) = length (skill model) /\
    ncol (probs d) = length (difficulty model) /\
    forall i j, (i < length (skill model))%nat ->
                (j < length (difficulty model))%nat ->
                0 <= get (probs d) i j <= 1.
Proof.
  destruct (ResponseModel_forward_ok model) as (d & Hd & Hn & Hm & Hg).
  exists d. split; [exact Hd|]. split; [exact Hn|]. split; [exact Hm|].
  intros i j Hi Hj. rewrite (Hg i j Hi Hj). unfold p_no_cheat.
  pose proof (sigmoid_pos (nth i (skill model) 0 - nth j (difficulty model) 0)).
  pose proof (sigmoid_lt_1 (nth i (skill model) 0 - nth j (difficulty model) 0)).
  lra.
Qed.

(** X2: under the baseline model a respondent with a higher skill has, on
    every item, a probability that is not lower, and an item with a higher
    difficulty has, for every respondent, a probability that is not
    higher. *)
Theorem baseline_probability_monotone (model : ResponseModel) :
  exists d,
    ResponseModel_forward model = Ok d /\
    (forall i i' j,
       (i < length (skill model))%nat -> (i' < length (skill model))%nat ->
       (j < length (difficulty model))%nat ->
       nth i (skill model) 0 <= nth i' (skill model) 0 ->
       get (probs d) i j <= get (probs d) i' j) /\
    (forall i j j',
       (i < length (skill model))%nat ->
       (j < length (difficulty model))%nat ->
       (j' < length (difficulty model))%nat ->
       nth j (difficulty model) 0 <= nth j' (difficulty model) 0 ->
       get (probs d) i j' <= get (probs d) i j).
Proof.
  assert (Hmono : forall a b, a <= b -> sigmoid a <= sigmoid b).
  { intros a b [Hlt | ->]; [left; apply sigmoid_increasing; exact Hlt|lra]. }
  destruct (ResponseModel_forward_ok model) as (d & Hd & _ & _ & Hg).
  exists d. split; [exact Hd|]. split.
  - intros i i' j Hi Hi' Hj Hle. rewrite !Hg by assumption.
    unfold p_no_cheat. apply Hmono. lra.
  - intros i j j' Hi Hj Hj' Hle. rewrite !Hg by assumption.
    unfold p_no_cheat. apply Hmono. lra.
Qed.

(** X5: a freshly constructed mixture model gives every one of its n
    respondents the cheater probability 1/n, and its predicted cheater is
    respondent 0, the first of the tied maxima. *)
Theorem fresh_mixture_model_is_uniform (n_students n_questions : nat) :
  (0 < n_students)%nat ->
  (forall i, (i < n_students)%nat ->
     cheater_prob
       (cheater_logits (ResponseModelWithCheater_init n_students n_questions)) i
     = / INR n_students) /\
  predicted_cheater_with_cheater
    (ResponseModelWithCheater_init n_students n_questions) = Ok 0%nat.
Proof.
  intros Hn. cbn [ResponseModelWithCheater_init cheater_logits]. split.
  - intros i Hi. unfold cheater_prob.
    rewrite softmax_nth by (rewrite zeros_length; exact Hi).
    rewrite nth_zeros, sum_exp_zeros, exp_0. unfold Rdiv. ring.
  - unfold predicted_cheater_with_cheater.
    cbn [ResponseModelWithCheater_init cheater_logits].
    rewrite argmax_softmax.
    destruct n_students as [|n]; [lia|].
    change (zeros (S n)) with (0 :: zeros n). cbn [argmax].
    now rewrite argmax_from_zeros.
Qed.

Lemma fresh_mixture_model_is_uniform_witness :
  (forall i, (i < 4)%nat ->
     cheater_prob (cheater_logits (ResponseModelWithCheater_init 4 3)) i
     = / INR 4) /\
  predicted_cheater_with_cheater (ResponseModelWithCheater_init 4 3) = Ok 0%nat.
Proof.
  apply (fresh_mixture_model_is_uniform 4 3). lia.
Defined.

(** X6: whatever the binary response matrix and alpha, the first loss that
    [fit] records for a freshly constructed baseline model is ln 2. *)
Theorem first_loss_of_fresh_model
  (backward : (ResponseModel -> outcome R) -> ResponseModel -> list (list R))
  (answers : Tensor2) (epochs : nat) (alpha : option R)
  (see_progress : option bool) (model' : ResponseModel) (losses : list R) :
  binary answers -> (0 < nrow answers)%nat -> (0 < ncol answers)%nat ->
  fit backward (ResponseModel_init (nrow answers) (ncol answers)) answers
    (S epochs) alpha see_progress = Ok (model', losses) ->
  exists rest, losses = ln 2 :: rest.
Proof.
  intros Hb Hn Hm Hfit. unfold fit in Hfit.
  destruct (run_epochs backward (S epochs) answers (fit_alpha alpha) _)
    as [st| |] eqn:Hrun; cbn [bind] in Hfit; try discriminate.
  injection Hfit as _ <-.
  destruct (run_epochs_first_loss backward epochs answers (fit_alpha alpha)
              (ln 2)
              {| st_model := ResponseModel_init (nrow answers) (ncol answers);
                 st_optimizer :=
                   fit_optimizer (ResponseModel_init (nrow answers) (ncol answers));
                 st_losses := [] |} st) as (rest & Hrest); [|exact Hrun|].
  - cbn [st_model]. apply loss_of_init; auto.
  - exists rest. exact Hrest.
Qed.

Lemma first_loss_of_fresh_model_witness :
  exists model' losses,
    fit zero_gradients
      (ResponseModel_init (nrow (all_correct 2 3)) (ncol (all_correct 2 3)))
      (all_correct 2 3) 1 (Some (1 / 100)) (Some false) = Ok (model', losses) /\
    exists rest, losses = ln 2 :: rest.
Proof.
  destruct (fit_one_epoch zero_gradients
              (ResponseModel_init (nrow (all_correct 2 3)) (ncol (all_correct 2 3)))
              (all_correct 2 3) (Some (1 / 100)) (Some false) (ln 2))
    as (model' & Hfit).
  - apply loss_of_init.
    + reflexivity.
    + reflexivity.
    + apply all_correct_binary.
    + simpl. lia.
    + simpl. lia.
  - exists model', [ln 2]. split; [exact Hfit|].
    apply (first_loss_of_fresh_model zero_gradients (all_correct 2 3) 0
             (Some (1 / 100)) (Some false) model' [ln 2]).
    + apply all_correct_binary.
    + simpl. lia.
    + simpl. lia.
    + exact Hfit.
Defined.

(** * Properties of the optimizer and of [fit] *)

Lemma nth_combine (A B : Type) (a : list A) (b : list B) (i : nat)
  (da : A) (db : B) :
  (i < length a)%nat -> (i < length b)%nat ->
  nth i (combine a b) (da, db) = (nth i a da, nth i b db).
Proof.
  revert b i. induction a as [|x a IH]; intros [|y b] [|i] Ha Hb;
    simpl in *; try lia; try reflexivity.
  apply IH; lia.
Qed.

Lemma nth_map2 (A B C : Type) (f : A -> B -> C) (a : list A) (b : list B)
  (i : nat) (da : A) (db : B) (dc : C) :
  (i < length a)%nat -> (i < length b)%nat ->
  nth i (map2 f a b) dc = f (nth i a da) (nth i b db).
Proof.
  intros Ha Hb. unfold map2.
  rewrite (nth_indep _ dc (f (fst (da, db)) (snd (da, db))))
    by (rewrite length_map, length_combine; lia).
  rewrite (map_nth (fun ab => f (fst ab) (snd ab))).
  rewrite nth_combine by assumption. reflexivity.
Qed.

Lemma map2_length (A B C : Type) (f : A -> B -> C) (a : list A) (b : list B) :
  length (map2 f a b) = Nat.min (length a) (length b).
Proof. unfold map2. now rewrite length_map, length_combine. Qed.

Lemma shape_length (a b : list (list R)) :
  shape a = shape b -> length a = length b.
Proof.
  intros H. unfold shape in H.
  rewrite <- (length_map (@length R) a), <- (length_map (@length R) b).
  now rewrite H.
Qed.

Lemma shape_nth (a b : list (list R)) (k : nat) :
  shape a = shape b -> length (nth k a []) = length (nth k b []).
Proof.
  revert b k. induction a as [|x a IH]; intros [|y b] [|k] H;
    simpl in *; try discriminate; try reflexivity.
  - now injection H.
  - injection H as _ H. now apply IH.
Qed.

Lemma shape_zeros (params : list (list R)) :
  shape (map (fun p => zeros (length p)) params) = shape params.
Proof.
  unfold shape. rewrite map_map. apply map_ext. intros p. apply zeros_length.
Qed.

Lemma map2_cons (A B C : Type) (f : A -> B -> C) (x : A) (a : list A)
  (y : B) (b : list B) :
  map2 f (x :: a) (y :: b) = f x y :: map2 f a b.
Proof. reflexivity. Qed.

Lemma shape_map2 (f : R -> R -> R) (a b : list (list R)) :
  shape a = shape b -> shape (map2 (map2 f) a b) = shape a.
Proof.
  revert b. induction a as [|x a IH]; intros [|y b] H;
    try discriminate; try reflexivity.
  cbn [shape map] in H. injection H as Hxy H.
  rewrite map2_cons. cbn [shape map]. f_equal.
  - rewrite map2_length, Hxy. apply Nat.min_id.
  - apply (IH b H).
Qed.

Lemma shape_update (u : R -> R * R -> R) (params m v : list (list R)) :
  shape m = shape params -> shape v = shape params ->
  shape (map2 (fun p mv => map2 u p (combine (fst mv) (snd mv)))
              params (combine m v)) = shape params.
Proof.
  revert m v. induction params as [|p params IH]; intros [|a m] [|b v] Hm Hv;
    try discriminate; try reflexivity.
  cbn [shape map] in Hm, Hv. injection Hm as Ha Hm. injection Hv as Hb Hv.
  cbn [combine]. rewrite map2_cons. cbn [shape map fst snd]. f_equal.
  - rewrite map2_length, length_combine, Ha, Hb. lia.
  - apply (IH m v Hm Hv).
Qed.

(** A step of the optimizer keeps the shapes of the parameters and of its
    own moment estimates. *)
Lemma Adam_step_shape (opt : Adam) (params grads : list (list R)) :
  shape (exp_avg opt) = shape params ->
  shape (exp_avg_sq opt) = shape params ->
  shape grads = shape params ->
  shape (fst (Adam_step opt params grads)) = shape params /\
  shape (exp_avg (snd (Adam_step opt params grads))) = shape params /\
  shape (exp_avg_sq (snd (Adam_step opt params grads))) = shape params.
Proof.
  intros Hm Hv Hg. unfold Adam_step. cbn [fst snd exp_avg exp_avg_sq].
  assert (Hm' : shape (map2 (map2 (fun m g =>
                  beta1 opt * m + (1 - beta1 opt) * g)) (exp_avg opt) grads)
                = shape params)
    by (rewrite shape_map2; congruence).
  assert (Hv' : shape (map2 (map2 (fun v g =>
                  beta2 opt * v + (1 - beta2 opt) * (g * g)))
                  (exp_avg_sq opt) grads)
                = shape params)
    by (rewrite shape_map2; congruence).
  split; [|split; assumption].
  apply shape_update; assumption.
Qed.

Lemma ResponseModel_load (model : ResponseModel) (ps : list (list R)) :
  length ps = length (parameters model) ->
  parameters (load_parameters model ps) = ps.
Proof.
  destruct ps as [|s [|d [|c ps]]]; simpl; intros H; try discriminate.
  reflexivity.
Qed.

Lemma ResponseModelWithCheater_load (model : ResponseModelWithCheater)
  (ps : list (list R)) :
  length ps = length (parameters model) ->
  parameters (load_parameters model ps) = ps.
Proof.
  destruct ps as [|s [|d [|c [|e ps]]]]; simpl; intros H; try discriminate.
  reflexivity.
Qed.

Section ShapeInvariant.

Context {M : Type} {module : NNModule M}.
Variable backward : (M -> outcome R) -> M -> list (list R).
Hypothesis backward_shape : shape_preserving backward.
Hypothesis load :
  forall (model : M) (ps : list (list R)),
    length ps = length (parameters model) ->
    parameters (load_parameters model ps) = ps.

Lemma epoch_shape (answers : Tensor2) (alpha : R) (st st' : fit_state) :
  epoch backward answers alpha st = Ok st' ->
  shape (exp_avg (st_optimizer st)) = shape (parameters (st_model st)) ->
  shape (exp_avg_sq (st_optimizer st)) = shape (parameters (st_model st)) ->
  shape (parameters (st_model st')) = shape (parameters (st_model st)) /\
  shape (exp_avg (st_optimizer st')) = shape (parameters (st_model st)) /\
  shape (exp_avg_sq (st_optimizer st')) = shape (parameters (st_model st)).
Proof.
  intros He Hm Hv. unfold epoch in He.
  destruct (loss_of answers alpha (st_model st)) as [loss| |];
    cbn [bind] in He; try discriminate.
  pose proof (Adam_step_shape (st_optimizer st) (parameters (st_model st))
                (backward (loss_of answers alpha) (st_model st)) Hm Hv
                (backward_shape _ _)) as (Hp & Hm' & Hv').
  destruct (Adam_step _ _ _) as [params optimizer].
  cbn [fst snd] in Hp, Hm', Hv'.
  injection He as <-. cbn [st_model st_optimizer].
  rewrite load by (apply shape_length; exact Hp).
  split; [exact Hp|]. split; assumption.
Qed.

Lemma run_epochs_shape (epochs : nat) (answers : Tensor2) (alpha : R)
  (st st' : fit_state) :
  run_epochs backward epochs answers alpha st = Ok st' ->
  shape (exp_avg (st_optimizer st)) = shape (parameters (st_model st)) ->
  shape (exp_avg_sq (st_optimizer st)) = shape (parameters (st_model st)) ->
  shape (parameters (st_model st')) = shape (parameters (st_model st)).
Proof.
  revert st. induction epochs as [|n IH]; intros st Hrun Hm Hv.
  - cbn in Hrun. injection Hrun as <-. reflexivity.
  - cbn [run_epochs] in Hrun.
    destruct (epoch backward answers alpha st) as [st1| |] eqn:He;
      cbn [bind] in Hrun; try discriminate.
    destruct (epoch_shape _ _ _ _ He Hm Hv) as (Hp & Hm' & Hv').
    rewrite <- Hp. apply (IH st1 Hrun); congruence.
Qed.

(** If the loss is a real number for every parameter state of the initial
    shape, every epoch goes through. *)
Lemma run_epochs_total (epochs : nat) (answers : Tensor2) (alpha : R)
  (s0 : list nat) (st : fit_state) :
  (forall model, shape (parameters model) = s0 ->
     exists loss, loss_of answers alpha model = Ok loss) ->
  shape (parameters (st_model st)) = s0 ->
  shape (exp_avg (st_optimizer st)) = s0 ->
  shape (exp_avg_sq (st_optimizer st)) = s0 ->
  exists st', run_epochs backward epochs answers alpha st = Ok st'.
Proof.
  intros Hloss. revert st.
  induction epochs as [|n IH]; intros st Hp Hm Hv.
  - exists st. reflexivity.
  - cbn [run_epochs].
    destruct (Hloss (st_model st) Hp) as (loss & Hl).
    destruct (epoch_ok backward answers alpha loss st Hl) as (st1 & He & _).
    rewrite He. cbn [bind].
    destruct (epoch_shape _ _ _ _ He) as (Hp' & Hm' & Hv'); try congruence.
    apply IH; congruence.
Qed.

Lemma fit_shape (model model' : M) (answers : Tensor2) (epochs : nat)
  (alpha : option R) (see_progress : option bool) (losses : list R) :
  fit backward model answers epochs alpha see_progress = Ok (model', losses) ->
  shape (parameters model') = shape (parameters model).
Proof.
  intros Hfit. unfold fit in Hfit.
  destruct (run_epochs backward epochs answers (fit_alpha alpha) _)
    as [st| |] eqn:Hrun; cbn [bind] in Hfit; try discriminate.
  injection Hfit as <- _.
  apply (run_epochs_shape _ _ _ _ _ Hrun);
    cbn [st_model st_optimizer fit_optimizer Adam_init exp_avg exp_avg_sq];
    apply shape_zeros.
Qed.

Lemma fit_total (model : M) (answers : Tensor2) (epochs : nat)
  (alpha : option R) (see_progress : option bool) :
  (forall model0, shape (parameters model0) = shape (parameters model) ->
     exists loss, loss_of answers (fit_alpha alpha) model0 = Ok loss) ->
  exists model' losses,
    fit backward model answers epochs alpha see_progress = Ok (model', losses) /\
    length losses = epochs /\
    shape (parameters model') = shape (parameters model).
Proof.
  intros Hloss.
  destruct (run_epochs_total epochs answers (fit_alpha alpha)
              (shape (parameters model))
              {| st_model := model; st_optimizer := fit_optimizer model;
                 st_losses := [] |} Hloss) as (st & Hrun);
    try (cbn [st_model st_optimizer fit_optimizer Adam_init exp_avg exp_avg_sq];
         first [reflexivity | apply shape_zeros]).
  assert (Hfit : fit backward model answers epochs alpha see_progress
                 = Ok (st_model st, st_losses st))
    by (unfold fit; rewrite Hrun; reflexivity).
  exists (st_model st), (st_losses st). split; [exact Hfit|]. split.
  - destruct (run_epochs_inv backward _ _ _ _ _ Hrun) as [Hlen _].
    exact Hlen.
  - apply (fit_shape _ _ _ _ _ _ _ Hfit).
Qed.

End ShapeInvariant.

(** ** Indices read when broadcasting *)

Lemma broadcast_dim_bidx_l (a b n i : nat) :
  broadcast_dim a b = Some n -> (i < n)%nat -> (bidx a i < a)%nat.
Proof.
  unfold broadcast_dim, bidx. intros H Hi.
  destruct (Nat.eqb_spec a 1) as [->|Ha]; [lia|].
  destruct (Nat.eqb_spec a b) as [->|Hab].
  - injection H as <-. exact Hi.
  - destruct (Nat.eqb_spec b 1); [|discriminate]. injection H as <-. exact Hi.
Qed.

Lemma broadcast_dim_bidx_r (a b n i : nat) :
  broadcast_dim a b = Some n -> (i < n)%nat -> (bidx b i < b)%nat.
Proof.
  unfold broadcast_dim, bidx. intros H Hi.
  destruct (Nat.eqb_spec b 1) as [->|Hb]; [lia|].
  destruct (Nat.eqb_spec a b) as [->|Hab].
  - injection H as <-. exact Hi.
  - destruct (Nat.eqb_spec a 1); [|discriminate]. injection H as <-. exact Hi.
Qed.

Lemma loss_of_not_boolean {M : Type} {module : NNModule M}
  (model : M) (d : Bernoulli) (answers : Tensor2) (alpha : R) (i j : nat) :
  forward model = Ok d ->
  (i < nrow answers)%nat -> (j < ncol answers)%nat ->
  get answers i j <> 0 -> get answers i j <> 1 ->
  loss_of answers alpha model = Raise ValueError.
Proof.
  intros Hd Hi Hj H0 H1. unfold loss_of. rewrite Hd. cbn [bind].
  unfold log_prob.
  destruct (broadcastable (probs d) answers); cbn [negb]; [|reflexivity].
  destruct (tensor_all boolean answers) eqn:Hb; cbn [negb]; [|reflexivity].
  exfalso.
  pose proof (proj1 (tensor_all_true boolean answers) Hb i j Hi Hj) as Hy.
  apply boolean_true in Hy. tauto.
Qed.

(** X9: a response matrix with an entry other than 0 and 1 is rejected: a
    fit of at least one epoch raises [ValueError] in its first evaluation of
    the log-likelihood, for the baseline model and for the mixture model. *)
Theorem fit_rejects_non_binary_answers
  (backward : (ResponseModel -> outcome R) -> ResponseModel -> list (list R))
  (backward' : (ResponseModelWithCheater -> outcome R) ->
               ResponseModelWithCheater -> list (list R))
  (model : ResponseModelWithCheater) (answers : Tensor2) (epochs : nat)
  (alpha : option R) (see_progress : option bool) (i j : nat) :
  length (cheater_logits model) = length (skill (base model)) ->
  (i < nrow answers)%nat -> (j < ncol answers)%nat ->
  get answers i j <> 0 -> get answers i j <> 1 ->
  fit backward (base model) answers (S epochs) alpha see_progress
  = Raise ValueError /\
  fit backward' model answers (S epochs) alpha see_progress
  = Raise ValueError.
Proof.
  intros Hlen Hi Hj H0 H1. split.
  - destruct (ResponseModel_forward_ok (base model)) as (d & Hfw & _).
    apply fit_raises.
    apply (loss_of_not_boolean (base model) d answers _ i j); assumption.
  - destruct (ResponseModelWithCheater_forward_ok model Hlen) as (d & Hfw & _).
    apply fit_raises.
    apply (loss_of_not_boolean model d answers _ i j); assumption.
Qed.

Lemma fit_rejects_non_binary_answers_witness :
  fit zero_gradients (base (ResponseModelWithCheater_init 2 2))
    {| nrow := 2; ncol := 2; get := fun i j => if Nat.eqb i j then 2 else 1 |}
    1 None (Some false) = Raise ValueError /\
  fit zero_gradients (ResponseModelWithCheater_init 2 2)
    {| nrow := 2; ncol := 2; get := fun i j => if Nat.eqb i j then 2 else 1 |}
    1 None (Some false) = Raise ValueError.
Proof.
  apply (fit_rejects_non_binary_answers zero_gradients zero_gradients
           (ResponseModelWithCheater_init 2 2)
           {| nrow := 2; ncol := 2;
              get := fun i j => if Nat.eqb i j then 2 else 1 |}
           0 None (Some false) 1 1).
  - reflexivity.
  - simpl. lia.
  - simpl. lia.
  - simpl. lra.
  - simpl. lra.
Defined.

(** X11: with gradients of the shapes of the parameters, [fit] returns a
    model whose parameter vectors have the lengths they had; in particular
    the mixture model keeps as many cheater logits as skills. *)
Theorem fit_preserves_parameter_lengths
  (backward : (ResponseModel -> outcome R) -> ResponseModel -> list (list R))
  (backward' : (ResponseModelWithCheater -> outcome R) ->
               ResponseModelWithCheater -> list (list R))
  (model0 model0' : ResponseModel) (model model' : ResponseModelWithCheater)
  (answers : Tensor2) (epochs : nat) (alpha : option R)
  (see_progress : option bool) (losses0 losses : list R) :
  shape_preserving backward -> shape_preserving backward' ->
  fit backward model0 answers epochs alpha see_progress = Ok (model0', losses0) ->
  fit backward' model answers epochs alpha see_progress = Ok (model', losses) ->
  (length (skill model0') = length (skill model0) /\
   length (difficulty model0') = length (difficulty model0)) /\
  (length (skill (base model')) = length (skill (base model)) /\
   length (difficulty (base model')) = length (difficulty (base model)) /\
   length (cheater_logits model') = length (cheater_logits model)).
Proof.
  intros Hb Hb' Hfit0 Hfit.
  pose proof (fit_shape backward Hb ResponseModel_load _ _ _ _ _ _ _ Hfit0) as H0.
  pose proof (fit_shape backward' Hb' ResponseModelWithCheater_load
                _ _ _ _ _ _ _ Hfit) as H.
  cbn in H0, H. injection H0 as Hs0 Hd0. injection H as Hs Hd Hc.
  repeat split; assumption.
Qed.

Lemma zero_gradients_shape_preserving {M : Type} {module : NNModule M} :
  shape_preserving (@zero_gradients M module).
Proof.
  intros f model. unfold zero_gradients, shape. rewrite map_map.
  apply map_ext. intros p. apply length_map.
Qed.

Lemma ResponseModel_loss_ok (model : ResponseModel) (answers : Tensor2)
  (alpha : R) :
  length (skill model) = nrow answers ->
  length (difficulty model) = ncol answers ->
  binary answers -> (0 < nrow answers)%nat -> (0 < ncol answers)%nat ->
  exists loss, loss_of answers alpha model = Ok loss.
Proof.
  intros Hs Hd Hb Hn Hm.
  destruct (ResponseModel_forward_ok model) as (d & Hfw & Hr & Hc & _).
  eexists. apply (loss_of_ok model d); try assumption; try lia.
  cbn. intros Hnil. rewrite Hnil in Hd. simpl in Hd. lia.
Qed.

Lemma ResponseModelWithCheater_loss_ok (model : ResponseModelWithCheater)
  (answers : Tensor2) (alpha : R) :
  length (cheater_logits model) = length (skill (base model)) ->
  length (skill (base model)) = nrow answers ->
  length (difficulty (base model)) = ncol answers ->
  binary answers -> (0 < nrow answers)%nat -> (0 < ncol answers)%nat ->
  exists loss, loss_of answers alpha model = Ok loss.
Proof.
  intros Hlen Hs Hd Hb Hn Hm.
  destruct (ResponseModelWithCheater_forward_ok model Hlen)
    as (d & Hfw & Hr & Hc & _).
  eexists. apply (loss_of_ok model d); try assumption; try lia.
  cbn. intros Hnil. rewrite Hnil in Hd. simpl in Hd. lia.
Qed.

Lemma ResponseModel_fit_total
  (backward : (ResponseModel -> outcome R) -> ResponseModel -> list (list R))
  (model : ResponseModel) (answers : Tensor2) (epochs : nat)
  (alpha : option R) (see_progress : option bool) :
  shape_preserving backward ->
  length (skill model) = nrow answers ->
  length (difficulty model) = ncol answers ->
  binary answers -> (0 < nrow answers)%nat -> (0 < ncol answers)%nat ->
  exists model' losses,
    fit backward model answers epochs alpha see_progress = Ok (model', losses) /\
    length losses = epochs /\
    length (skill model') = nrow answers /\
    length (difficulty model') = ncol answers.
Proof.
  intros Hbw Hs Hd Hb Hn Hm.
  destruct (fit_total backward Hbw ResponseModel_load model answers epochs
              alpha see_progress) as (model' & losses & Hfit & Hlen & Hshape).
  - intros model0 H0. cbn in H0. injection H0 as Hs0 Hd0.
    apply ResponseModel_loss_ok; try assumption; congruence.
  - exists model', losses. split; [exact Hfit|]. split; [exact Hlen|].
    cbn in Hshape. injection Hshape as Hs' Hd'. split; congruence.
Qed.

Lemma ResponseModelWithCheater_fit_total
  (backward : (ResponseModelWithCheater -> outcome R) ->
              ResponseModelWithCheater -> list (list R))
  (model : ResponseModelWithCheater) (answers : Tensor2) (epochs : nat)
  (alpha : option R) (see_progress : option bool) :
  shape_preserving backward ->
  length (cheater_logits model) = length (skill (base model)) ->
  length (skill (base model)) = nrow answers ->
  length (difficulty (base model)) = ncol answers ->
  binary answers -> (0 < nrow answers)%nat -> (0 < ncol answers)%nat ->
  exists model' losses,
    fit backward model answers epochs alpha see_progress = Ok (model', losses) /\
    length losses = epochs /\
    length (cheater_logits model') = nrow answers.
Proof.
  intros Hbw Hlen Hs Hd Hb Hn Hm.
  destruct (fit_total backward Hbw ResponseModelWithCheater_load model answers
              epochs alpha see_progress)
    as (model' & losses & Hfit & Hl & Hshape).
  - intros model0 H0. cbn in H0. injection H0 as Hs0 Hd0 Hc0.
    apply ResponseModelWithCheater_loss_ok; try assumption; congruence.
  - exists model', losses. split; [exact Hfit|]. split; [exact Hl|].
    cbn in Hshape. injection Hshape as Hs' Hd' Hc'. congruence.
Qed.

Lemma fit_preserves_parameter_lengths_witness :
  exists model0' losses0 model' losses,
    fit zero_gradients (ResponseModel_init 2 3) (all_correct 2 3) 2
      (Some (1 / 100)) (Some false) = Ok (model0', losses0) /\
    fit zero_gradients (ResponseModelWithCheater_init 2 3) (all_correct 2 3) 2
      (Some (1 / 100)) (Some false) = Ok (model', losses) /\
    (length (skill model0') = length (skill (ResponseModel_init 2 3)) /\
     length (difficulty model0')
     = length (difficulty (ResponseModel_init 2 3))) /\
    (length (skill (base model'))
     = length (skill (base (ResponseModelWithCheater_init 2 3))) /\
     length (difficulty (base model'))
     = length (difficulty (base (ResponseModelWithCheater_init 2 3))) /\
     length (cheater_logits model')
     = length (cheater_logits (ResponseModelWithCheater_init 2 3))).
Proof.
  destruct (ResponseModel_fit_total zero_gradients (ResponseModel_init 2 3)
              (all_correct 2 3) 2 (Some (1 / 100)) (Some false))
    as (model0' & losses0 & Hfit0 & _).
  { apply zero_gradients_shape_preserving. }
  { reflexivity. }
  { reflexivity. }
  { apply all_correct_binary. }
  { simpl. lia. }
  { simpl. lia. }
  destruct (ResponseModelWithCheater_fit_total zero_gradients
              (ResponseModelWithCheater_init 2 3)
              (all_correct 2 3) 2 (Some (1 / 100)) (Some false))
    as (model' & losses & Hfit & _).
  { apply zero_gradients_shape_preserving. }
  { reflexivity. }
  { reflexivity. }
  { reflexivity. }
  { apply all_correct_binary. }
  { simpl. lia. }
  { simpl. lia. }
  exists model0', losses0, model', losses.
  split; [exact Hfit0|]. split; [exact Hfit|].
  apply (fit_preserves_parameter_lengths zero_gradients zero_gradients
           (ResponseModel_init 2 3) model0'
           (ResponseModelWithCheater_init 2 3) model'
           (all_correct 2 3) 2 (Some (1 / 100)) (Some false) losses0 losses).
  - apply zero_gradients_shape_preserving.
  - apply zero_gradients_shape_preserving.
  - exact Hfit0.
  - exact Hfit.
Defined.

(** * Properties of the scorers *)

(** Distributions of one shape with the same probabilities give the same
    row sums of the log-likelihood, or fail alike. *)
Lemma log_prob_row_sums_ext (d d' : Bernoulli) (answers : Tensor2) :
  nrow (probs d') = nrow (probs d) -> ncol (probs d') = ncol (probs d) ->
  (forall i j, (i < nrow (probs d))%nat -> (j < ncol (probs d))%nat ->
     get (probs d') i j = get (probs d) i j) ->
  (lp <- log_prob d' answers ;; Ok (sum_axis1 lp))
  = (lp <- log_prob d answers ;; Ok (sum_axis1 lp)).
Proof.
  intros Hr Hc Hg. unfold log_prob, broadcastable, binop.
  cbn [tmap nrow ncol]. rewrite Hr, Hc.
  destruct (broadcast_dim (nrow (probs d)) (nrow answers)) as [n|] eqn:Hn;
    [|reflexivity].
  destruct (broadcast_dim (ncol (probs d)) (ncol answers)) as [m|] eqn:Hm;
    [|reflexivity].
  cbn [negb].
  destruct (tensor_all boolean answers); cbn [negb]; [|reflexivity].
  cbn [bind]. f_equal. unfold sum_axis1, row. cbn [nrow ncol get tmap].
  apply map_ext_in. intros i Hi. apply in_seq in Hi.
  apply sum_map_ext. intros j Hj. apply in_seq in Hj.
  rewrite Hg; [reflexivity| |].
  - apply (broadcast_dim_bidx_l _ _ _ _ Hn). lia.
  - apply (broadcast_dim_bidx_l _ _ _ _ Hm). lia.
Qed.

Lemma ResponseModel_forward_shift (model : ResponseModel) (C : R) :
  exists d d',
    ResponseModel_forward model = Ok d /\
    ResponseModel_forward
      {| skill := shift C (skill model);
         difficulty := shift C (difficulty model) |} = Ok d' /\
    nrow (probs d') = nrow (probs d) /\ ncol (probs d') = ncol (probs d) /\
    forall i j, (i < nrow (probs d))%nat -> (j < ncol (probs d))%nat ->
      get (probs d') i j = get (probs d) i j.
Proof.
  destruct (ResponseModel_forward_ok model) as (d & Hd & Hn & Hm & Hg).
  destruct (ResponseModel_forward_ok
              {| skill := shift C (skill model);
                 difficulty := shift C (difficulty model) |})
    as (d' & Hd' & Hn' & Hm' & Hg').
  cbn [skill difficulty] in Hn', Hm', Hg'.
  unfold shift in Hn', Hm', Hg'. rewrite !length_map in Hg'.
  rewrite length_map in Hn', Hm'.
  exists d, d'. split; [exact Hd|]. split; [exact Hd'|].
  split; [congruence|]. split; [congruence|].
  intros i j Hi Hj. rewrite Hn in Hi. rewrite Hm in Hj.
  rewrite (Hg i j Hi Hj), (Hg' i j Hi Hj). unfold p_no_cheat.
  rewrite (nth_indep (map _ (skill model)) 0 (0 + C))
    by (rewrite length_map; exact Hi).
  rewrite (nth_indep (map _ (difficulty model)) 0 (0 + C))
    by (rewrite length_map; exact Hj).
  rewrite !(map_nth (fun x => x + C)). f_equal. ring.
Qed.

(** X13: the baseline scorer is invariant under translation: adding one
    constant to every skill and every difficulty of the fitted model changes
    neither the row sums of the log-likelihood nor the predicted cheater (nor
    the exception, if one is raised), whatever the response matrix. *)
Theorem baseline_scorer_translation_invariant (model : ResponseModel) (C : R)
  (answers : Tensor2) :
  log_probs {| skill := shift C (skill model);
               difficulty := shift C (difficulty model) |} answers
  = log_probs model answers /\
  predicted_cheater {| skill := shift C (skill model);
                       difficulty := shift C (difficulty model) |} answers
  = predicted_cheater model answers.
Proof.
  assert (H : log_probs {| skill := shift C (skill model);
                           difficulty := shift C (difficulty model) |} answers
              = log_probs model answers).
  { destruct (ResponseModel_forward_shift model C)
      as (d & d' & Hd & Hd' & Hr & Hc & Hg).
    unfold log_probs. cbn [forward ResponseModel_module].
    rewrite Hd, Hd'. cbn [bind].
    apply (log_prob_row_sums_ext d d' answers Hr Hc Hg). }
  split; [exact H|]. unfold predicted_cheater. now rewrite H.
Qed.

(** X14: without respondents both scorers raise [ValueError], the argmin or
    argmax of an empty array. *)
Theorem scorers_reject_no_respondent (model : ResponseModelWithCheater)
  (answers : Tensor2) :
  skill (base model) = [] -> cheater_logits model = [] ->
  nrow answers = 0%nat -> ncol answers = length (difficulty (base model)) ->
  predicted_cheater (base model) answers = Raise ValueError /\
  predicted_cheater_with_cheater model = Raise ValueError.
Proof.
  intros Hs Hc Hn Hm. split.
  - destruct (log_probs_ok (base model) answers) as (d & _ & Hlp).
    + rewrite Hs, Hn. reflexivity.
    + congruence.
    + intros i j Hi. lia.
    + unfold predicted_cheater. rewrite Hlp, Hn. reflexivity.
  - unfold predicted_cheater_with_cheater. rewrite Hc. reflexivity.
Qed.

Lemma scorers_reject_no_respondent_witness :
  predicted_cheater (base (ResponseModelWithCheater_init 0 3)) (all_correct 0 3)
  = Raise ValueError /\
  predicted_cheater_with_cheater (ResponseModelWithCheater_init 0 3)
  = Raise ValueError.
Proof.
  apply (scorers_reject_no_respondent (ResponseModelWithCheater_init 0 3)
           (all_correct 0 3)); reflexivity.
Defined.

(** * Properties of [generate_data] and of the repeated trials *)

Lemma nth_ones (n j : nat) : (j < n)%nat -> nth j (ones n) 0 = 1.
Proof.
  intros Hj. unfold ones.
  rewrite (nth_indep _ 0 1) by (rewrite repeat_length; exact Hj).
  apply nth_repeat.
Qed.

Lemma nth_row (t : Tensor2) (i j : nat) :
  (j < ncol t)%nat -> nth j (row t i) 0 = get t i j.
Proof.
  intros Hj. unfold row.
  rewrite (nth_indep _ 0 (get t i 0))
    by (rewrite length_map, length_seq; exact Hj).
  rewrite (map_nth (get t i)), seq_nth by exact Hj. reflexivity.
Qed.

Lemma row_length (t : Tensor2) (i : nat) : length (row t i) = ncol t.
Proof. unfold row. now rewrite length_map, length_seq. Qed.

Lemma nth_where (condition : list bool) (x y : list R) (j : nat) :
  (j < length condition)%nat -> (j < length x)%nat -> (j < length y)%nat ->
  nth j (where_ condition x y) 0
  = if nth j condition false then nth j x 0 else nth j y 0.
Proof.
  intros Hc Hx Hy. unfold where_.
  change 0 with ((fun cxy : bool * (R * R) =>
                    if fst cxy then fst (snd cxy) else snd (snd cxy))
                   (false, (0, 0))) at 1.
  rewrite map_nth.
  rewrite nth_combine by (rewrite ?length_combine; lia).
  rewrite nth_combine by lia. reflexivity.
Qed.

Lemma scaled_draw_range (us : list R) (i : nat) :
  Forall (fun u => 0 <= u < 1) us -> (i < length us)%nat ->
  -3 <= nth i (map (fun u => -3 + 6 * u) us) 0 < 3.
Proof.
  intros Hus Hi.
  rewrite (nth_indep _ 0 ((fun u => -3 + 6 * u) 0))
    by (rewrite length_map; exact Hi).
  rewrite (map_nth (fun u => -3 + 6 * u)).
  pose proof (proj1 (Forall_nth _ us) Hus i 0 Hi) as H. cbv beta in H. lra.
Qed.

(** What [generate_data] returns, for draws as torch makes them and at
    least one student. *)
Lemma generate_data_ok (rng : Draws) (n_students n_questions : nat) :
  valid_draws rng n_students n_questions -> (0 < n_students)%nat ->
  exists d,
    ResponseModel_forward
      {| skill := map (fun u => -3 + 6 * u) (rand_skill rng);
         difficulty := map (fun u => -3 + 6 * u) (rand_difficulty rng) |}
    = Ok d /\
    nrow (probs d) = n_students /\ ncol (probs d) = n_questions /\
    generate_data rng n_students n_questions
    = Ok ({| skill := map (fun u => -3 + 6 * u) (rand_skill rng);
             difficulty := map (fun u => -3 + 6 * u) (rand_difficulty rng) |},
          set_row (sample rng d) (randint rng)
            (where_ (sample_is_cheating rng) (ones n_questions)
                    (row (sample rng d) (randint rng))),
          randint rng).
Proof.
  intros (Hs & _ & Hd & _ & _ & _ & _) Hn.
  destruct (ResponseModel_forward_ok
              {| skill := map (fun u => -3 + 6 * u) (rand_skill rng);
                 difficulty := map (fun u => -3 + 6 * u) (rand_difficulty rng) |})
    as (d & Hfw & Hr & Hc & _).
  cbn [skill difficulty] in Hr, Hc. rewrite length_map in Hr, Hc.
  exists d. split; [exact Hfw|]. split; [congruence|]. split; [congruence|].
  unfold generate_data. cbn [skill difficulty forward ResponseModel_module].
  rewrite Hfw. cbn [bind].
  destruct (Nat.eqb_spec n_students 0) as [H0|H0]; [lia|].
  reflexivity.
Qed.

Lemma generate_data_answers (rng : Draws) (n_students n_questions : nat)
  (d : Bernoulli) :
  valid_draws rng n_students n_questions ->
  nrow (probs d) = n_students -> ncol (probs d) = n_questions ->
  let answers :=
    set_row (sample rng d) (randint rng)
      (where_ (sample_is_cheating rng) (ones n_questions)
              (row (sample rng d) (randint rng))) in
  nrow answers = n_students /\ ncol answers = n_questions /\
  binary answers /\
  forall i j, (i < n_students)%nat -> (j < n_questions)%nat ->
    get answers i j
    = if Nat.eqb i (randint rng)
      then (if nth j (sample_is_cheating rng) false then 1
            else get (sample rng d) i j)
      else get (sample rng d) i j.
Proof.
  intros (_ & _ & _ & _ & Hsample & _ & Hmask) Hr Hc. cbv zeta.
  destruct (Hsample d) as (Hsr & Hsc & Hsb).
  assert (Hget : forall i j, (i < n_students)%nat -> (j < n_questions)%nat ->
            get (set_row (sample rng d) (randint rng)
                   (where_ (sample_is_cheating rng) (ones n_questions)
                      (row (sample rng d) (randint rng)))) i j
            = if Nat.eqb i (randint rng)
              then (if nth j (sample_is_cheating rng) false then 1
                    else get (sample rng d) i j)
              else get (sample rng d) i j).
  { intros i j Hi Hj. cbn [set_row get].
    destruct (Nat.eqb_spec i (randint rng)) as [->|Hne]; [|reflexivity].
    rewrite nth_where
      by (rewrite ?row_length; unfold ones; rewrite ?repeat_length; lia).
    rewrite nth_ones by exact Hj. rewrite nth_row by lia. reflexivity. }
  cbn [set_row nrow ncol].
  split; [congruence|]. split; [congruence|]. split; [|exact Hget].
  intros i j Hi Hj. cbn [set_row nrow ncol] in Hi, Hj.
  change (get (set_row (sample rng d) (randint rng)
                 (where_ (sample_is_cheating rng) (ones n_questions)
                    (row (sample rng d) (randint rng)))) i j = 0 \/
          get (set_row (sample rng d) (randint rng)
                 (where_ (sample_is_cheating rng) (ones n_questions)
                    (row (sample rng d) (randint rng)))) i j = 1).
  rewrite Hget by lia.
  destruct (Nat.eqb i (randint rng));
    [destruct (nth j (sample_is_cheating rng) false); [right; reflexivity|]|];
    apply Hsb; assumption.
Qed.

Lemma constant_draws_valid (n_students n_questions : nat) :
  (0 < n_students)%nat ->
  valid_draws (constant_draws n_students n_questions) n_students n_questions.
Proof.
  intros Hn. unfold valid_draws, constant_draws.
  cbn [rand_skill rand_difficulty sample randint sample_is_cheating].
  assert (Hz : forall n, Forall (fun u => 0 <= u < 1) (zeros n)).
  { intros n. apply Forall_forall. intros u Hu. unfold zeros in Hu.
    apply repeat_spec in Hu. subst. lra. }
  split; [apply zeros_length|]. split; [apply Hz|].
  split; [apply zeros_length|]. split; [apply Hz|].
  split.
  { intros d. split; [reflexivity|]. split; [reflexivity|].
    apply all_correct_binary. }
  split; [exact Hn|]. apply repeat_length.
Qed.

(** X15: for draws as torch makes them and at least one student,
    [generate_data] returns a model with [n_students] skills and
    [n_questions] difficulties (although it first constructs the model with
    [n_students] difficulties), all of them in [-3, 3), a binary answer
    matrix of shape (n_students, n_questions), and a cheater index below
    [n_students]. *)
Theorem generate_data_valid (rng : Draws) (n_students n_questions : nat) :
  valid_draws rng n_students n_questions -> (0 < n_students)%nat ->
  exists model answers cheater,
    generate_data rng n_students n_questions = Ok (model, answers, cheater) /\
    length (skill model) = n_students /\
    length (difficulty model) = n_questions /\
    (forall i, (i < n_students)%nat -> -3 <= nth i (skill model) 0 < 3) /\
    (forall j, (j < n_questions)%nat -> -3 <= nth j (difficulty model) 0 < 3) /\
    nrow answers = n_students /\ ncol answers = n_questions /\
    binary answers /\
    (cheater < n_students)%nat.
Proof.
  intros Hv Hn.
  destruct (generate_data_ok rng n_students n_questions Hv Hn)
    as (d & _ & Hr & Hc & Hgen).
  destruct (generate_data_answers rng n_students n_questions d Hv Hr Hc)
    as (Har & Hac & Hab & _).
  destruct Hv as (Hs & Hsr & Hd & Hdr & _ & Hri & _).
  eexists. eexists. eexists. split; [exact Hgen|].
  cbn [skill difficulty]. rewrite !length_map.
  split; [exact Hs|]. split; [exact Hd|].
  split; [intros i Hi; apply scaled_draw_range; [exact Hsr|lia]|].
  split; [intros j Hj; apply scaled_draw_range; [exact Hdr|lia]|].
  split; [exact Har|]. split; [exact Hac|]. split; [exact Hab|exact Hri].
Qed.

Lemma generate_data_valid_witness :
  exists model answers cheater,
    generate_data (constant_draws 2 3) 2 3 = Ok (model, answers, cheater) /\
    length (skill model) = 2%nat /\
    length (difficulty model) = 3%nat /\
    (forall i, (i < 2)%nat -> -3 <= nth i (skill model) 0 < 3) /\
    (forall j, (j < 3)%nat -> -3 <= nth j (difficulty model) 0 < 3) /\
    nrow answers = 2%nat /\ ncol answers = 3%nat /\
    binary answers /\
    (cheater < 2)%nat.
Proof.
  apply (generate_data_valid (constant_draws 2 3) 2 3).
  - apply constant_draws_valid. lia.
  - lia.
Defined.

(** X16: [generate_data] changes the sampled answers only in the row of the
    cheater, and there only where the cheater cheats, to 1: every other
    entry is the sampled one, and no entry is lower than the sampled one. *)
Theorem generate_data_overrides_cheater_row (rng : Draws)
  (n_students n_questions : nat) :
  valid_draws rng n_students n_questions -> (0 < n_students)%nat ->
  exists d model answers cheater,
    ResponseModel_forward model = Ok d /\
    generate_data rng n_students n_questions = Ok (model, answers, cheater) /\
    cheater = randint rng /\
    forall i j, (i < n_students)%nat -> (j < n_questions)%nat ->
      (i <> cheater -> get answers i j = get (sample rng d) i j) /\
      (nth j (sample_is_cheating rng) false = true ->
       get answers cheater j = 1) /\
      (nth j (sample_is_cheating rng) false = false ->
       get answers cheater j = get (sample rng d) cheater j) /\
      get (sample rng d) i j <= get answers i j.
Proof.
  intros Hv Hn.
  destruct (generate_data_ok rng n_students n_questions Hv Hn)
    as (d & Hfw & Hr & Hc & Hgen).
  destruct (generate_data_answers rng n_students n_questions d Hv Hr Hc)
    as (_ & _ & _ & Hget).
  destruct Hv as (_ & _ & _ & _ & Hsample & Hri & _).
  destruct (Hsample d) as (Hsr & Hsc & Hsb).
  exists d. eexists. eexists. eexists.
  split; [exact Hfw|]. split; [exact Hgen|]. split; [reflexivity|].
  intros i j Hi Hj.
  split; [|split; [|split]].
  - intros Hne. rewrite (Hget i j Hi Hj).
    destruct (Nat.eqb_spec i (randint rng)); [contradiction|reflexivity].
  - intros Hm. rewrite (Hget (randint rng) j Hri Hj), Nat.eqb_refl, Hm.
    reflexivity.
  - intros Hm. rewrite (Hget (randint rng) j Hri Hj), Nat.eqb_refl, Hm.
    reflexivity.
  - rewrite (Hget i j Hi Hj).
    destruct (Nat.eqb i (randint rng)); [|lra].
    destruct (nth j (sample_is_cheating rng) false); [|lra].
    destruct (Hsb i j) as [H0|H1]; try lia; lra.
Qed.

Lemma mixed_draws_valid : valid_draws mixed_draws 2 3.
Proof.
  unfold valid_draws, mixed_draws.
  cbn [rand_skill rand_difficulty sample randint sample_is_cheating].
  split; [reflexivity|].
  split; [repeat constructor; lra|].
  split; [reflexivity|].
  split; [repeat constructor; lra|].
  split.
  { intros d. split; [reflexivity|]. split; [reflexivity|].
    intros i j _ _. cbn [get].
    destruct i as [|[|i]]; destruct j as [|[|[|j]]]; cbn;
      try (destruct i); try (destruct j); auto. }
  split; [lia|reflexivity].
Qed.

Lemma generate_data_overrides_cheater_row_witness :
  exists d model answers cheater,
    ResponseModel_forward model = Ok d /\
    generate_data mixed_draws 2 3 = Ok (model, answers, cheater) /\
    cheater = randint mixed_draws /\
    (forall i j, (i < 2)%nat -> (j < 3)%nat ->
       (i <> cheater ->
        get answers i j = get (sample mixed_draws d) i j) /\
       (nth j (sample_is_cheating mixed_draws) false = true ->
        get answers cheater j = 1) /\
       (nth j (sample_is_cheating mixed_draws) false = false ->
        get answers cheater j = get (sample mixed_draws d) cheater j) /\
       get (sample mixed_draws d) i j <= get answers i j) /\
    cheater = 1%nat /\
    get (sample mixed_draws d) 1 0 = 0 /\ get answers 1 0 = 1 /\
    get (sample mixed_draws d) 1 1 = 0 /\ get answers 1 1 = 0 /\
    get (sample mixed_draws d) 0 1 = 0 /\ get answers 0 1 = 0.
Proof.
  destruct (generate_data_overrides_cheater_row mixed_draws 2 3)
    as (d & model & answers & cheater & Hfw & Hgen & Hc & Hall).
  - apply mixed_draws_valid.
  - lia.
  - exists d, model, answers, cheater.
    split; [exact Hfw|]. split; [exact Hgen|]. split; [exact Hc|].
    split; [exact Hall|].
    assert (Hc1 : cheater = 1%nat) by (rewrite Hc; reflexivity).
    split; [exact Hc1|]. clear Hc.
    destruct (Hall 1%nat 0%nat ltac:(lia) ltac:(lia)) as (_ & H10 & _ & _).
    destruct (Hall 1%nat 1%nat ltac:(lia) ltac:(lia)) as (_ & _ & H11 & _).
    destruct (Hall 0%nat 1%nat ltac:(lia) ltac:(lia)) as (H01 & _ & _ & _).
    rewrite Hc1 in H10, H11, H01.
    split; [reflexivity|]. split; [apply H10; reflexivity|].
    split; [reflexivity|]. split; [rewrite H11 by reflexivity; reflexivity|].
    split; [reflexivity|]. rewrite H01 by lia. reflexivity.
Defined.

(** [torch.randint(high=0, ...)]: without students [generate_data] raises. *)
Lemma generate_data_no_student (rng : Draws) (n_questions : nat) :
  generate_data rng 0 n_questions = Raise RuntimeError.
Proof.
  unfold generate_data. cbn [forward ResponseModel_module].
  destruct (ResponseModel_forward_ok
              {| skill := map (fun u => -3 + 6 * u) (rand_skill rng);
                 difficulty := map (fun u => -3 + 6 * u) (rand_difficulty rng) |})
    as (d & Hfw & _).
  cbn [skill difficulty]. rewrite Hfw. reflexivity.
Qed.

Lemma predicted_cheater_ok (model : ResponseModel) (answers : Tensor2) :
  length (skill model) = nrow answers ->
  length (difficulty model) = ncol answers ->
  binary answers -> (0 < nrow answers)%nat ->
  exists k, predicted_cheater model answers = Ok k /\ (k < nrow answers)%nat.
Proof.
  intros Hs Hd Hb Hn.
  destruct (log_probs_ok model answers Hs Hd Hb) as (d & _ & Hlp).
  destruct (argmin_spec (map (row_log_likelihood d answers)
                             (seq 0 (nrow answers))))
    as (k & Hk & Hlt & _).
  { intros Hnil. apply (f_equal (@length R)) in Hnil.
    rewrite length_map, length_seq in Hnil. simpl in Hnil. lia. }
  rewrite length_map, length_seq in Hlt.
  exists k. split; [|exact Hlt].
  unfold predicted_cheater. rewrite Hlp. exact Hk.
Qed.

Lemma predicted_cheater_with_cheater_ok (model : ResponseModelWithCheater) :
  cheater_logits model <> [] ->
  exists k, predicted_cheater_with_cheater model = Ok k /\
            (k < length (cheater_logits model))%nat.
Proof.
  intros Hne. unfold predicted_cheater_with_cheater.
  destruct (argmax_spec (softmax (cheater_logits model))) as (k & Hk & Hlt & _).
  { unfold softmax. destruct (cheater_logits model); [congruence|discriminate]. }
  rewrite softmax_length in Hlt. exists k. split; assumption.
Qed.

Lemma n_questions_pos : (0 < 10000)%nat.
Proof. apply Nat.ltb_lt. vm_compute. reflexivity. Qed.

Section TrialFacts.

Variable rngs : nat -> Draws.
Variable backward :
  (ResponseModel -> outcome R) -> ResponseModel -> list (list R).
Variable backward_with_cheater :
  (ResponseModelWithCheater -> outcome R) ->
  ResponseModelWithCheater -> list (list R).

Lemma trial_ok (rng : Draws) :
  valid_draws rng 100 10000 -> shape_preserving backward ->
  exists success, trial backward rng = Ok success.
Proof.
  intros Hv Hbw.
  assert (H100 : (0 < 100)%nat) by lia.
  destruct (generate_data_ok rng 100 10000 Hv H100)
    as (d & _ & Hr & Hc & Hgen).
  destruct (generate_data_answers rng 100 10000 d Hv Hr Hc)
    as (Har & Hac & Hab & _).
  unfold trial. rewrite Hgen. cbn [bind].
  set (answers := set_row _ _ _) in *.
  destruct (ResponseModel_fit_total backward
              (ResponseModel_init (nrow answers) (ncol answers)) answers 1000
              (Some (1 / 100)) (Some false))
    as (model' & losses & Hfit & _ & Hs' & Hd'); try assumption.
  - apply zeros_length.
  - apply zeros_length.
  - rewrite Har. exact H100.
  - rewrite Hac. exact n_questions_pos.
  - rewrite Hfit. cbn [bind fst].
    destruct (predicted_cheater_ok model' answers Hs' Hd' Hab)
      as (k & Hk & _); [rewrite Har; exact H100|].
    rewrite Hk. cbn [bind]. eexists. reflexivity.
Qed.

Lemma trial_with_cheater_ok (rng : Draws) :
  valid_draws rng 100 10000 -> shape_preserving backward_with_cheater ->
  exists success, trial_with_cheater backward_with_cheater rng = Ok success.
Proof.
  intros Hv Hbw.
  assert (H100 : (0 < 100)%nat) by lia.
  destruct (generate_data_ok rng 100 10000 Hv H100)
    as (d & _ & Hr & Hc & Hgen).
  destruct (generate_data_answers rng 100 10000 d Hv Hr Hc)
    as (Har & Hac & Hab & _).
  unfold trial_with_cheater. rewrite Hgen. cbn [bind].
  set (answers := set_row _ _ _) in *.
  destruct (ResponseModelWithCheater_fit_total backward_with_cheater
              (ResponseModelWithCheater_init (nrow answers) (ncol answers))
              answers 1000 (Some (1 / 100)) (Some false))
    as (model' & losses & Hfit & _ & Hc'); try assumption.
  - cbn [ResponseModelWithCheater_init ResponseModel_init cheater_logits base
         skill]. now rewrite !zeros_length.
  - apply zeros_length.
  - apply zeros_length.
  - rewrite Har. exact H100.
  - rewrite Hac. exact n_questions_pos.
  - rewrite Hfit. cbn [bind fst].
    destruct (predicted_cheater_with_cheater_ok model') as (k & Hk & _).
    { intros Hnil. rewrite Hnil, Har in Hc'. simpl in Hc'. lia. }
    rewrite Hk. cbn [bind]. eexists. reflexivity.
Qed.

Lemma run_trials_bounds (body : Draws -> outcome bool)
  (todo k successes result : nat) :
  run_trials rngs body todo k successes = Ok result ->
  (successes <= result <= successes + todo)%nat.
Proof.
  revert k successes. induction todo as [|todo IH]; intros k successes H.
  - cbn in H. injection H as <-. lia.
  - cbn [run_trials] in H.
    destruct (body (rngs k)) as [success| |]; cbn [bind] in H;
      try discriminate.
    apply IH in H. destruct success; lia.
Qed.

Lemma run_trials_total (body : Draws -> outcome bool)
  (todo k successes : nat) :
  (forall k, exists success, body (rngs k) = Ok success) ->
  exists result, run_trials rngs body todo k successes = Ok result.
Proof.
  intros Hbody. revert k successes.
  induction todo as [|todo IH]; intros k successes.
  - exists successes. reflexivity.
  - cbn [run_trials]. destruct (Hbody k) as (success & Hs).
    rewrite Hs. cbn [bind]. apply IH.
Qed.

Lemma INR_samples : INR samples = 100.
Proof. unfold samples. rewrite INR_IZR_INZ. reflexivity. Qed.

Lemma success_rate_inv (body : Draws -> outcome bool) (rate : R) :
  success_rate rngs body = Ok rate ->
  exists successes,
    run_trials rngs body samples 0 0 = Ok successes /\
    (successes <= samples)%nat /\
    rate = INR successes / INR samples * 100 /\
    0 <= rate <= 100.
Proof.
  unfold success_rate. intros H.
  destruct (run_trials rngs body samples 0 0) as [successes| |] eqn:Hrun;
    cbn [bind] in H; try discriminate.
  injection H as <-.
  pose proof (run_trials_bounds _ _ _ _ _ Hrun) as [_ Hle].
  exists successes. split; [reflexivity|]. split; [lia|].
  split; [reflexivity|].
  assert (H0 : 0 <= INR successes) by apply pos_INR.
  assert (H1 : INR successes <= INR samples) by (apply le_INR; lia).
  rewrite INR_samples in *. lra.
Qed.

End TrialFacts.

(** X17: whatever the loop body does, a success rate that is printed is a
    percentage: the number of successes is at most the number of samples,
    and the rate lies between 0 and 100. *)
Theorem success_rate_is_percentage (rngs : nat -> Draws)
  (body : Draws -> outcome bool) (rate : R) :
  success_rate rngs body = Ok rate ->
  exists successes,
    run_trials rngs body samples 0 0 = Ok successes /\
    (successes <= samples)%nat /\
    rate = INR successes / INR samples * 100 /\
    0 <= rate <= 100.
Proof. apply success_rate_inv. Qed.

(** X18: with draws as torch makes them and gradients of the shapes of the
    parameters, both measuring loops run to their end: no call of
    [generate_data], [fit] or of a scorer raises or meets nan in any of the
    100 trials, for any stream of draws, and a success rate is printed. *)
Theorem trials_return (rngs : nat -> Draws)
  (backward : (ResponseModel -> outcome R) -> ResponseModel -> list (list R))
  (backward_with_cheater :
     (ResponseModelWithCheater -> outcome R) ->
     ResponseModelWithCheater -> list (list R)) :
  (forall k, valid_draws (rngs k) 100 10000) ->
  shape_preserving backward -> shape_preserving backward_with_cheater ->
  (exists rate, success_rate rngs (trial backward) = Ok rate) /\
  (exists rate,
     success_rate rngs (trial_with_cheater backward_with_cheater) = Ok rate).
Proof.
  intros Hv Hbw Hbw'. split.
  - destruct (run_trials_total rngs (trial backward) samples 0 0)
      as (successes & Hrun).
    { intros k. apply trial_ok; [apply Hv|exact Hbw]. }
    unfold success_rate. rewrite Hrun. cbn [bind]. eexists. reflexivity.
  - destruct (run_trials_total rngs (trial_with_cheater backward_with_cheater)
                samples 0 0) as (successes & Hrun).
    { intros k. apply trial_with_cheater_ok; [apply Hv|exact Hbw']. }
    unfold success_rate. rewrite Hrun. cbn [bind]. eexists. reflexivity.
Qed.

Lemma trials_return_witness :
  (exists rate,
     success_rate (fun _ => constant_draws 100 10000) (trial zero_gradients)
     = Ok rate) /\
  (exists rate,
     success_rate (fun _ => constant_draws 100 10000)
       (trial_with_cheater zero_gradients) = Ok rate).
Proof.
  apply (trials_return (fun _ => constant_draws 100 10000)
           zero_gradients zero_gradients).
  - intros k. apply constant_draws_valid. lia.
  - apply zero_gradients_shape_preserving.
  - apply zero_gradients_shape_preserving.
Defined.

Lemma success_rate_is_percentage_witness :
  exists rate successes,
    success_rate (fun _ => constant_draws 100 10000) (trial zero_gradients)
    = Ok rate /\
    run_trials (fun _ => constant_draws 100 10000) (trial zero_gradients)
      samples 0 0 = Ok successes /\
    (successes <= samples)%nat /\
    rate = INR successes / INR samples * 100 /\
    0 <= rate <= 100.
Proof.
  destruct (run_trials_total (fun _ => constant_draws 100 10000)
              (trial zero_gradients) samples 0 0) as (successes & Hrun).
  { intros k. apply trial_ok.
    - apply constant_draws_valid. lia.
    - apply zero_gradients_shape_preserving. }
  assert (Hrate : success_rate (fun _ => constant_draws 100 10000)
                    (trial zero_gradients)
                  = Ok (INR successes / INR samples * 100))
    by (unfold success_rate; rewrite Hrun; reflexivity).
  destruct (success_rate_is_percentage (fun _ => constant_draws 100 10000)
              (trial zero_gradients) _ Hrate)
    as (successes' & Hrun' & Hle & Heq & Hb).
  exists (INR successes / INR samples * 100), successes'.
  split; [exact Hrate|]. split; [exact Hrun'|]. split; [exact Hle|].
  split; assumption.
Defined.

